(** * SGTU event platform: attendance toggle, feedback gate, one-time ranking

    A shallow embedding of the request handlers of the event server
    (student controller, volunteer scan logic, stall token minting) over an
    explicit model of the PostgreSQL store, followed by the properties the
    specification states about them. *)

From stdpp Require Import gmap strings list fin_maps pretty sorting.

Open Scope Z_scope.

(** ** Tables *)

(** Rows are keyed by their [id] column (a uuid, kept as a string) in a
    finite map; the [rankings] and [feedbacks] tables are row lists because
    the handlers count and scan them. *)

Record student := Student {
  registration_no : string;
  school_id : string;
  is_inside_event : bool;
  has_completed_ranking : bool;
  selected_category : option string;
  total_feedback_given : Z }.

Record stall := Stall {
  stall_number : string;
  stall_name : string;
  stall_school_id : string;
  qr_code_token : string;
  rank_1_votes : Z;
  rank_2_votes : Z;
  rank_3_votes : Z;
  weighted_score : Z;
  total_feedback_count : Z }.

Record volunteer := Volunteer {
  is_active : bool;
  total_scans_performed : Z }.

Record ranking := Ranking {
  ranking_student_id : string;
  ranking_stall_id : string;
  ranking_rank : Z }.

Record feedback := Feedback {
  feedback_student_id : string;
  feedback_stall_id : string;
  feedback_rating : Z;
  feedback_comment : option string }.

Record db := Db {
  students : gmap string student;
  stalls : gmap string stall;
  volunteers : gmap string volunteer;
  rankings : list ranking;
  feedbacks : list feedback }.

(** ** Responses *)

Inductive payload :=
| RankingsSubmitted (submitted_rankings : list (Z * option string * option string))
| FeedbackSubmitted (stall_name_ stall_number_ : string) (rating : Z)
    (comment : option string) (total_feedbacks_given remaining_feedbacks : Z)
| StallScanned (stall_id : string) (already_reviewed : bool)
    (existing_feedback : option (Z * option string)).

(** [successResponse] and [errorResponse] of helpers/response.js carry the
    message and the HTTP status; [next_error] is the handler's outer
    [catch (error) { next(error) }]. *)
Inductive response :=
| successResponse (data : payload) (message : string) (status : Z)
| errorResponse (message : string) (status : Z)
| next_error (e : string).

(** ** The database session *)

(** What the store holds durably is [committed]; inside BEGIN .. COMMIT
    the statements sent through the session, whichever request sends them,
    work on [pending].  [issued] numbers the statements sent so far and
    [observed] logs the committed store after each of them, newest
    first. *)
Record session := Session {
  committed : db;
  pending : option db;
  issued : nat;
  observed : list db }.

Inductive outcome (A : Type) :=
| Ok (a : A)
| Throw (e : string).
Arguments Ok {A} a.
Arguments Throw {A} e.

(** A computation reads the fault schedule (which statements the store
    rejects, by statement number) and threads the session. *)
Definition M (A : Type) : Type := (nat → bool) → session → outcome A * session.

#[global] Instance M_ret : MRet M := λ A a _ s, (Ok a, s).

#[global] Instance M_bind : MBind M := λ A B k m faults s,
  match m faults s with
  | (Ok a, s') => k a faults s'
  | (Throw e, s') => (Throw e, s')
  end.

Definition throw {A} (e : string) : M A := λ _ s, (Throw e, s).

Definition try_catch {A} (m : M A) (h : string → M A) : M A := λ faults s,
  match m faults s with
  | (Ok a, s') => (Ok a, s')
  | (Throw e, s') => h e faults s'
  end.

Fixpoint for_of {A} (l : list A) (body : A → M unit) : M unit :=
  match l with
  | [] => mret tt
  | x :: l' => body x;; for_of l' body
  end.

Definition working (s : session) : db := default (committed s) (pending s).

Definition tick (s : session) (c : db) (p : option db) : session :=
  {| committed := c; pending := p; issued := S (issued s);
     observed := c :: observed s |}.

Definition db_error : string := "database error".

(** Modelled from the spec: the [query] helper of config/db.js is not part
    of the sources.  Following the atomic state mutation primitive of the
    external interfaces (all writes made inside the unit commit together or
    none), it is one SQL session: a statement outside a transaction is
    committed at once, a statement between BEGIN and COMMIT changes the
    pending copy only, and a rejected statement changes nothing and
    throws. *)
Definition query {A} (stmt : db → A * db) : M A := λ faults s,
  if faults (issued s) then (Throw db_error, tick s (committed s) (pending s))
  else
    let '(a, d) := stmt (working s) in
    match pending s with
    | Some _ => (Ok a, tick s (committed s) (Some d))
    | None => (Ok a, tick s d None)
    end.

Definition BEGIN : M unit := λ faults s,
  if faults (issued s) then (Throw db_error, tick s (committed s) (pending s))
  else (Ok tt, tick s (committed s) (Some (working s))).

Definition COMMIT : M unit := λ faults s,
  if faults (issued s) then (Throw db_error, tick s (committed s) (pending s))
  else (Ok tt, tick s (working s) None).

Definition ROLLBACK : M unit := λ faults s,
  if faults (issued s) then (Throw db_error, tick s (committed s) (pending s))
  else (Ok tt, tick s (committed s) None).

Definition select {A} (f : db → A) : M A := query (λ d, (f d, d)).
Definition execute (f : db → db) : M unit := query (λ d, (tt, f d)).

(** The outer [try { ... } catch (error) { next(error) }] of every handler. *)
Definition handler (body : M response) : M response :=
  try_catch body (λ e, mret (next_error e)).

Definition connect (d : db) : session :=
  {| committed := d; pending := None; issued := 0; observed := [] |}.

Definition no_faults : nat → bool := λ _, false.

(** A request served alone on a healthy store: the response and the store
    it leaves. *)
Definition serve (h : M response) (d : db) : response * db :=
  match h no_faults (connect d) with
  | (Ok r, s) => (r, committed s)
  | (Throw e, s) => (next_error e, committed s)
  end.

(** ** Model layer (the model classes under models/) *)

(** Modelled from the spec: Student.findById, the directory lookup of a
    participant row by its storage id. *)
Definition Student_findById (id : string) : M (option student) :=
  select (λ d, students d !! id).

(** Modelled from the spec: Stall.findById, the directory lookup of a stall
    row by its storage id. *)
Definition Stall_findById (id : string) : M (option stall) :=
  select (λ d, stalls d !! id).

(** INSERT INTO rankings ... VALUES (three rows) *)
Definition sql_insert_rankings (rows : list ranking) (d : db) : db :=
  {| students := students d; stalls := stalls d; volunteers := volunteers d;
     rankings := rankings d ++ rows; feedbacks := feedbacks d |}.

(** Modelled from the spec: Ranking.bulkCreate inserts the given ranking
    rows (step 2 of the ranking transaction) in one statement. *)
Definition Ranking_bulkCreate (rows : list ranking) : M unit :=
  execute (sql_insert_rankings rows).

(** ** JavaScript helpers *)

(** [Array.prototype.sort] without a comparator orders the elements by
    their string conversions; [pretty] is [String(n)] on the integers a
    JSON body carries. *)
Fixpoint sort_insert (x : string) (l : list string) : list string :=
  match l with
  | [] => [x]
  | y :: l' => if String.leb x y then x :: l else y :: sort_insert x l'
  end.

Definition Array_sort (l : list string) : list string :=
  foldr sort_insert [] l.

Definition Array_join (sep : string) (l : list string) : string :=
  String.concat sep l.

(** [new Set(xs).size] *)
Definition Set_size (xs : list string) : nat :=
  size (list_to_set xs : gset string).

(** ** Ranking submission (student controller, submitSchoolRanking) *)

(** One element of [req.body.rankings]: [{ stall_id, rank }], the stall id
    a uuid string and the rank a JSON integer. *)
Record entry := Entry {
  entry_stall_id : string;
  entry_rank : Z }.

Definition set_completed (s : student) : student :=
  {| registration_no := registration_no s; school_id := school_id s;
     is_inside_event := is_inside_event s;
     has_completed_ranking := true;
     selected_category := Some "CATEGORY_2";
     total_feedback_given := total_feedback_given s |}.

(** UPDATE students SET has_completed_ranking = true,
    selected_category = 'CATEGORY_2' WHERE id = $1 *)
Definition sql_mark_completed (user_id : string) (d : db) : db :=
  {| students := alter set_completed user_id (students d);
     stalls := stalls d; volunteers := volunteers d;
     rankings := rankings d; feedbacks := feedbacks d |}.

(** The SET list of the per-stall UPDATE.  Every right-hand side of an SQL
    SET list reads the row as it was before the statement, so the
    [weighted_score] expression sees the counters before the increment. *)
Definition set_votes (rank : Z) (st : stall) : stall :=
  let score := rank_1_votes st * 5 + rank_2_votes st * 3 + rank_3_votes st * 1 in
  {| stall_number := stall_number st; stall_name := stall_name st;
     stall_school_id := stall_school_id st; qr_code_token := qr_code_token st;
     rank_1_votes := if rank =? 1 then rank_1_votes st + 1 else rank_1_votes st;
     rank_2_votes :=
       if rank =? 1 then rank_2_votes st
       else if rank =? 2 then rank_2_votes st + 1 else rank_2_votes st;
     rank_3_votes :=
       if rank =? 1 then rank_3_votes st
       else if rank =? 2 then rank_3_votes st else rank_3_votes st + 1;
     weighted_score := score;
     total_feedback_count := total_feedback_count st |}.

(** UPDATE stalls SET <column> = <column> + 1, weighted_score = ...
    WHERE id = $1 *)
Definition sql_count_vote (e : entry) (d : db) : db :=
  {| students := students d;
     stalls := alter (set_votes (entry_rank e)) (entry_stall_id e) (stalls d);
     volunteers := volunteers d;
     rankings := rankings d; feedbacks := feedbacks d |}.

(** SELECT ... FROM stalls WHERE id = ANY($1): the rows of the table whose
    id occurs in the array, each once ([id] is the primary key).  The
    statement has no ORDER BY: the rows come as the table yields them, not
    in the order of the array, and the properties below rely on them only
    up to their order. *)
Definition sql_stalls_by_ids (ids : list string) (d : db) : list stall :=
  (filter (λ row, row.1 ∈ ids) (map_to_list (stalls d))).*2.

Definition by_rank (a b : ranking) : Prop := ranking_rank a ≤ ranking_rank b.

#[global] Instance by_rank_dec a b : Decision (by_rank a b) :=
  decide (ranking_rank a ≤ ranking_rank b).

(** SELECT r.rank, st.stall_name, st.stall_number FROM rankings r
    LEFT JOIN stalls st ... WHERE r.student_id = $1 ORDER BY r.rank ASC *)
Definition sql_ranked_stalls (user_id : string) (d : db)
  : list (Z * option string * option string) :=
  (λ r, (ranking_rank r,
         stall_name <$> stalls d !! ranking_stall_id r,
         stall_number <$> stalls d !! ranking_stall_id r)) <$>
  merge_sort by_rank
    (filter (λ r, ranking_student_id r = user_id) (rankings d)).

Definition rankingData (user_id : string) (rs : list entry) : list ranking :=
  (λ r, {| ranking_student_id := user_id;
           ranking_stall_id := entry_stall_id r;
           ranking_rank := entry_rank r |}) <$> rs.

(** The handler up to the transaction: [Some] is an early [return] of a
    response, [None] falls through to the [try { BEGIN ... }] block. *)
Definition ranking_checks (user_id : string) (rs : list entry)
  : M (option response) :=
  if negb (Nat.eqb (length rs) 3) then
    mret (Some (errorResponse "Must provide exactly 3 stall rankings" 400))
  else
  let ranks := Array_sort (pretty <$> (entry_rank <$> rs)) in
  if negb (String.eqb (Array_join "," ranks) "1,2,3") then
    mret (Some (errorResponse
      "Rankings must be exactly 1, 2, and 3 (no duplicates)" 400))
  else
  let stallIds := entry_stall_id <$> rs in
  if negb (Nat.eqb (Set_size stallIds) 3) then
    mret (Some (errorResponse "Must rank 3 different stalls" 400))
  else
  student ← Student_findById user_id;
  match student with
  | None => mret (Some (errorResponse "Student not found" 404))
  | Some student =>
    if has_completed_ranking student then
      mret (Some (errorResponse
        "You have already submitted your rankings. This is ONE-TIME only." 409))
    else
    stallsToRank ← select (sql_stalls_by_ids stallIds);
    if negb (Nat.eqb (length stallsToRank) 3) then
      mret (Some (errorResponse "One or more stalls not found" 404))
    else
    let invalidStalls :=
      filter (λ s, stall_school_id s ≠ school_id student) stallsToRank in
    if Nat.ltb 0 (length invalidStalls) then
      mret (Some (errorResponse
        ("You can only rank stalls from YOUR school. Invalid: " +:+
         Array_join ", " (stall_name <$> invalidStalls)) 403))
    else mret None
  end.

(** The inner [try { BEGIN; ...; COMMIT; ... } catch { ROLLBACK; throw }]. *)
Definition ranking_transaction (user_id : string) (rs : list entry)
  : M response :=
  try_catch
    (BEGIN;;
     Ranking_bulkCreate (rankingData user_id rs);;
     execute (sql_mark_completed user_id);;
     for_of rs (λ ranking, execute (sql_count_vote ranking));;
     COMMIT;;
     rankedStalls ← select (sql_ranked_stalls user_id);
     mret (successResponse (RankingsSubmitted rankedStalls)
             "School rankings submitted" 201))
    (λ error, ROLLBACK;; throw error).

Definition submitSchoolRanking (user_id : string) (rs : list entry)
  : M response :=
  handler
    (early ← ranking_checks user_id rs;
     match early with
     | Some r => mret r
     | None => ranking_transaction user_id rs
     end).

(** The transaction block cut at an [await]: the statements up to and
    including the first [k] counter updates, and the statements after
    them.  Every handler sends its statements through the one [query] of
    config/db.js, so a statement of another request that is served between
    the two parts runs on the same session. *)
Definition ranking_transaction_begun (user_id : string) (rs : list entry)
    (k : nat) : M unit :=
  BEGIN;;
  Ranking_bulkCreate (rankingData user_id rs);;
  execute (sql_mark_completed user_id);;
  for_of (take k rs) (λ ranking, execute (sql_count_vote ranking)).

Definition ranking_transaction_rest (user_id : string) (rs : list entry)
    (k : nat) : M response :=
  for_of (drop k rs) (λ ranking, execute (sql_count_vote ranking));;
  COMMIT;;
  rankedStalls ← select (sql_ranked_stalls user_id);
  mret (successResponse (RankingsSubmitted rankedStalls)
          "School rankings submitted" 201).

(** ** Feedback (student controller, submitFeedback) *)

(** JavaScript truthiness of an optional string and of an optional number:
    [undefined], the empty string and [0] are falsy. *)
Definition falsy_string (x : option string) : bool :=
  match x with
  | None => true
  | Some s => String.eqb s ""
  end.

Definition falsy_number (x : option Z) : bool :=
  match x with
  | None => true
  | Some n => n =? 0
  end.

Definition feedbacks_of (user_id : string) (d : db) : list feedback :=
  filter (λ f, feedback_student_id f = user_id) (feedbacks d).

(** Modelled from the spec: Feedback.countByStudent, the number of Feedback
    Records of the participant (the quantity the global cap bounds). *)
Definition Feedback_countByStudent (user_id : string) : M Z :=
  select (λ d, Z.of_nat (length (feedbacks_of user_id d))).

(** Modelled from the spec: Feedback.findByStudentAndStall, the Feedback
    Record of the (participant, stall) pair, if any. *)
Definition Feedback_findByStudentAndStall (user_id stall_id : string)
  : M (option feedback) :=
  select (λ d,
    head (filter (λ f, feedback_stall_id f = stall_id) (feedbacks_of user_id d))).

(** INSERT INTO feedbacks ... VALUES (one row) *)
Definition sql_insert_feedback (row : feedback) (d : db) : db :=
  {| students := students d; stalls := stalls d; volunteers := volunteers d;
     rankings := rankings d; feedbacks := feedbacks d ++ [row] |}.

(** Modelled from the spec: Feedback.create inserts the Feedback Record and
    returns it. *)
Definition Feedback_create (row : feedback) : M feedback :=
  query (λ d, (row, sql_insert_feedback row d)).

Definition add_feedback_given (s : student) : student :=
  {| registration_no := registration_no s; school_id := school_id s;
     is_inside_event := is_inside_event s;
     has_completed_ranking := has_completed_ranking s;
     selected_category := selected_category s;
     total_feedback_given := total_feedback_given s + 1 |}.

Definition sql_count_given (user_id : string) (d : db) : db :=
  {| students := alter add_feedback_given user_id (students d);
     stalls := stalls d; volunteers := volunteers d;
     rankings := rankings d; feedbacks := feedbacks d |}.

(** Modelled from the spec: Student.incrementFeedbackCount adds one to the
    participant's feedback counter. *)
Definition Student_incrementFeedbackCount (user_id : string) : M unit :=
  execute (sql_count_given user_id).

Definition add_feedback_count (st : stall) : stall :=
  {| stall_number := stall_number st; stall_name := stall_name st;
     stall_school_id := stall_school_id st; qr_code_token := qr_code_token st;
     rank_1_votes := rank_1_votes st; rank_2_votes := rank_2_votes st;
     rank_3_votes := rank_3_votes st; weighted_score := weighted_score st;
     total_feedback_count := total_feedback_count st + 1 |}.

(** UPDATE stalls SET total_feedback_count = total_feedback_count + 1
    WHERE id = $1 *)
Definition sql_count_feedback (stall_id : string) (d : db) : db :=
  {| students := students d;
     stalls := alter add_feedback_count stall_id (stalls d);
     volunteers := volunteers d;
     rankings := rankings d; feedbacks := feedbacks d |}.

(** [comment || null] *)
Definition or_null (comment : option string) : option string :=
  match comment with
  | Some s => if String.eqb s "" then None else Some s
  | None => None
  end.

Definition submitFeedback (user_id : string) (stall_id : option string)
    (rating : option Z) (comment : option string) : M response :=
  handler
    (if falsy_string stall_id || falsy_number rating then
       mret (errorResponse "Stall ID and rating are required" 400)
     else
     let stall_id := default "" stall_id in
     let rating := default 0 rating in
     if (rating <? 1) || (rating >? 5) then
       mret (errorResponse "Rating must be between 1 and 5" 400)
     else
     student ← Student_findById user_id;
     match student with
     | None => mret (errorResponse "Student not found. Please login again." 404)
     | Some student =>
       if negb (is_inside_event student) then
         mret (errorResponse
           "You must be checked in at the event to submit feedback" 403)
       else
       feedbackCount ← Feedback_countByStudent user_id;
       if 200 <=? feedbackCount then
         mret (errorResponse
           "You have reached the maximum feedback limit (200)" 403)
       else
       stall ← Stall_findById stall_id;
       match stall with
       | None => mret (errorResponse "Stall not found" 404)
       | Some stall =>
         existingFeedback ← Feedback_findByStudentAndStall user_id stall_id;
         match existingFeedback with
         | Some _ =>
           mret (errorResponse
             "You have already submitted feedback for this stall" 409)
         | None =>
           feedback ← Feedback_create
             {| feedback_student_id := user_id; feedback_stall_id := stall_id;
                feedback_rating := rating; feedback_comment := or_null comment |};
           Student_incrementFeedbackCount user_id;;
           execute (sql_count_feedback stall_id);;
           mret (successResponse
             (FeedbackSubmitted (stall_name stall) (stall_number stall)
                (feedback_rating feedback) (feedback_comment feedback)
                (feedbackCount + 1) (200 - (feedbackCount + 1)))
             "Feedback submitted successfully" 201)
         end
       end
     end).

(** ** Directory lookups by a natural key *)

(** The first row of a table that satisfies a decidable predicate, with its
    id. *)
Definition find_row {V} (P : V → Prop) `{∀ v, Decision (P v)}
    (m : gmap string V) : option (string * V) :=
  snd <$> list_find (λ kv, P kv.2) (map_to_list m).


(** Modelled from the spec: Student.findByRegistrationNo, the directory
    lookup findParticipantByNaturalKey. *)
Definition Student_findByRegistrationNo (reg : string)
  : M (option (string * student)) :=
  select (λ d, find_row (λ s, registration_no s = reg) (students d)).

(** ** Stall scan (student controller, scanStall) *)

Section StallScan.

(** QRCodeService.verifyStallQRToken is not part of the sources; the
    handler only uses whether its result is present and [valid]. *)
Variable verifyStallQRToken : string → bool.


End StallScan.

(** ** Gate scan (volunteer controller, scanStudentQR) *)

Inductive direction := ENTRY | EXIT.

Definition toggle_inside (s : student) : student :=
  {| registration_no := registration_no s; school_id := school_id s;
     is_inside_event := negb (is_inside_event s);
     has_completed_ranking := has_completed_ranking s;
     selected_category := selected_category s;
     total_feedback_given := total_feedback_given s |}.

Definition sql_toggle_inside (id : string) (d : db) : db :=
  {| students := alter toggle_inside id (students d);
     stalls := stalls d; volunteers := volunteers d;
     rankings := rankings d; feedbacks := feedbacks d |}.

(** Modelled from the spec: Student.processCheckInOut flips the persisted
    [is_inside_event] flag of the participant (false becomes true on an
    entry, true becomes false on an exit) and returns the updated row. *)
Definition Student_processCheckInOut (id : string) : M (option student) :=
  query (λ d, (toggle_inside <$> students d !! id, sql_toggle_inside id d)).

Definition add_scan (v : volunteer) : volunteer :=
  {| is_active := is_active v;
     total_scans_performed := total_scans_performed v + 1 |}.

(** UPDATE volunteers SET total_scans_performed = total_scans_performed + 1
    WHERE id = $1 *)
Definition sql_count_scan (volunteer_id : string) (d : db) : db :=
  {| students := students d; stalls := stalls d;
     volunteers := alter add_scan volunteer_id (volunteers d);
     rankings := rankings d; feedbacks := feedbacks d |}.

(** Modelled from the spec: Volunteer.findById, the lookup of the scanning
    staff actor by its storage id. *)
Definition Volunteer_findById (id : string) : M (option volunteer) :=
  select (λ d, volunteers d !! id).

(** What reading a property of [null] or [undefined] throws. *)
Definition TypeError : string := "TypeError".

Section GateScan.

(** QRCodeService.verifyStudentQRToken is not part of the sources; the
    scan uses the [registration_no] of what it decodes ([None]: nothing
    decoded). *)
Variable verifyStudentQRToken : string → option string.

(** Steps 1 to 5 of the volunteer scan: [inl] is the early 403, [inr] the
    direction the scan goes on to record. *)
Definition scanStudentQR (volunteer_id qr_code_token : string)
  : M (response + direction) :=
  match verifyStudentQRToken qr_code_token with
  | None => throw TypeError
  | Some reg =>
    student ← Student_findByRegistrationNo reg;
    volunteer ← Volunteer_findById volunteer_id;
    if match volunteer with
       | Some v => negb (is_active v)
       | None => false
       end
    then mret (inl (errorResponse "Your volunteer account is inactive" 403))
    else
    match student with
    | None => throw TypeError
    | Some (student_id, student) =>
      let action := if is_inside_event student then EXIT else ENTRY in
      updatedStudent ← Student_processCheckInOut student_id;
      execute (sql_count_scan volunteer_id);;
      mret (inr action)
    end
  end.

End GateScan.

(** ** Stall token minting (stall import loop) *)










(** ** Rotating participant tokens *)

Module TokenCodec.

Inductive kind := STUDENT | STALL.

Record IdentityClaim := Claim {
  subject_id : string;
  issued_window : Z;
  nonce : string;
  claim_kind : kind }.

Record SignedClaim := Signed {
  claim : IdentityClaim;
  signature : string }.

Inductive TokenError := Expired | BadSignature | Malformed | FutureWindow.

#[global] Instance kind_eq_dec : EqDecision kind.
Proof. solve_decision. Defined.

Section Codec.

Variable ROTATION_INTERVAL : Z.
Variable GRACE_WINDOWS : Z.
(** the process-wide signing key and the keyed signature *)
Variable secret : string.
Variable sign : string → IdentityClaim → string.
(** the transportable encoding of a signed claim *)
Variable RotatingToken : Type.
Variable encode : SignedClaim → RotatingToken.
Variable decode : RotatingToken → option SignedClaim.

(** Modelled from the spec: [issued_window = floor(now / ROTATION_INTERVAL)]. *)
Definition window (now : Z) : Z := now `div` ROTATION_INTERVAL.

(** Modelled from the spec: generateParticipantToken embeds the subject,
    the window of [now], a nonce and kind STUDENT, signs the claim with
    the secret and encodes it.  The token service (services/qrCode.js)
    is not part of the sources. *)
Definition generateParticipantToken (subject : string) (now : Z)
    (nonce_ : string) : RotatingToken :=
  let c := {| subject_id := subject; issued_window := window now;
              nonce := nonce_; claim_kind := STUDENT |} in
  encode {| claim := c; signature := sign secret c |}.

(** Modelled from the spec: verifyParticipantToken fails closed on a
    token that does not decode or is not a participant token
    (Malformed) or whose signature does not match (BadSignature),
    rejects a window in the verifier's future (FutureWindow), and
    accepts exactly the windows in
    [current_window - GRACE_WINDOWS, current_window] (Expired below). *)
Definition verifyParticipantToken (token : RotatingToken) (now : Z)
  : TokenError + string :=
  match decode token with
  | None => inl Malformed
  | Some t =>
    if negb (String.eqb (signature t) (sign secret (claim t))) then
      inl BadSignature
    else if negb (bool_decide (claim_kind (claim t) = STUDENT)) then
      inl Malformed
    else
      let current_window := window now in
      if current_window <? issued_window (claim t) then inl FutureWindow
      else if issued_window (claim t) <? current_window - GRACE_WINDOWS
      then inl Expired
      else inr (subject_id (claim t))
  end.

(** Modelled from the spec: secondsUntilNextRotation, advisory only. *)
Definition secondsUntilNextRotation (now : Z) : Z :=
  ROTATION_INTERVAL - now `mod` ROTATION_INTERVAL.

End Codec.

End TokenCodec.

(** ** Reference points for the properties *)

(** All writes of a ranking submission, applied in statement order. *)
Definition apply_ranking (user_id : string) (rs : list entry) (d : db) : db :=
  foldl (λ d r, sql_count_vote r d)
    (sql_mark_completed user_id
       (sql_insert_rankings (rankingData user_id rs) d))
    rs.

(** A store state is all-or-nothing with respect to the stores before and
    after a unit of writes. *)
Definition all_or_nothing (before after : db) (o : db) : Prop :=
  o = before ∨ o = after.

(** The statement numbers [from, from + n) are all served. *)
Definition healthy (faults : nat → bool) (from n : nat) : Prop :=
  ∀ k, (from ≤ k < from + n)%nat → faults k = false.

(** The schedule that rejects exactly statement [k]. *)
Definition fault_at (k : nat) : nat → bool := λ i, Nat.eqb i k.

(** ** Sample data *)

Definition sample_student (reg school : string) (inside : bool) : student :=
  {| registration_no := reg; school_id := school; is_inside_event := inside;
     has_completed_ranking := false; selected_category := None;
     total_feedback_given := 0 |}.

Definition sample_stall (number name school token : string) : stall :=
  {| stall_number := number; stall_name := name; stall_school_id := school;
     qr_code_token := token;
     rank_1_votes := 0; rank_2_votes := 0; rank_3_votes := 0;
     weighted_score := 0; total_feedback_count := 0 |}.

Definition sample_db : db :=
  {| students :=
       {[ "u1" := sample_student "2024SGTU10001" "SCSE" false;
          "u2" := sample_student "2024SGTU10002" "SCSE" true ]};
     stalls :=
       {[ "s1" := sample_stall "CS-001" "AI" "SCSE" "STALL_CS-001_1700000000000_abcdeq";
          "s2" := sample_stall "CS-002" "ML" "SCSE" "STALL_CS-002_1700000000000_k3x9aa";
          "s3" := sample_stall "CS-003" "DB" "SCSE" "STALL_CS-003_1700000000000_zz01bq";
          "s4" := sample_stall "ME-001" "Robotics" "SOE" "STALL_ME-001_1700000000000_q7w8eg" ]};
     volunteers := {[ "v1" := {| is_active := true; total_scans_performed := 0 |} ]};
     rankings := [];
     feedbacks := [] |}.

(** The sample store with a second stall of school SOE. *)
Definition two_foreign_db : db :=
  {| students := students sample_db;
     stalls :=
       <[ "s5" := sample_stall "EE-001" "Drones" "SOE" "STALL_EE-001_1700000000000_d4r5tz" ]>
         (stalls sample_db);
     volunteers := volunteers sample_db;
     rankings := rankings sample_db;
     feedbacks := feedbacks sample_db |}.

Definition sample_ranking : list entry :=
  [ {| entry_stall_id := "s1"; entry_rank := 1 |};
    {| entry_stall_id := "s2"; entry_rank := 2 |};
    {| entry_stall_id := "s3"; entry_rank := 3 |} ].

(** ** The spec's names for the typed failures *)

Definition AlreadySubmitted : response :=
  errorResponse
    "You have already submitted your rankings. This is ONE-TIME only." 409.

Definition InvalidRankSet : response :=
  errorResponse "Rankings must be exactly 1, 2, and 3 (no duplicates)" 400.

Definition DuplicateStall : response :=
  errorResponse "Must rank 3 different stalls" 400.

Definition StallNotFound : response :=
  errorResponse "One or more stalls not found" 404.

Definition CrossSchoolStall (invalid : list stall) : response :=
  errorResponse
    ("You can only rank stalls from YOUR school. Invalid: " +:+
     Array_join ", " (stall_name <$> invalid)) 403.

Definition RatingRequired : response :=
  errorResponse "Stall ID and rating are required" 400.

Definition OutOfRange : response :=
  errorResponse "Rating must be between 1 and 5" 400.

Definition NotCheckedIn : response :=
  errorResponse "You must be checked in at the event to submit feedback" 403.

Definition QuotaExceeded : response :=
  errorResponse "You have reached the maximum feedback limit (200)" 403.

Definition AlreadyReviewed : response :=
  errorResponse "You have already submitted feedback for this stall" 409.

(** The three checks on the request body alone. *)
Definition well_formed (rs : list entry) : bool :=
  Nat.eqb (length rs) 3
  && String.eqb
       (Array_join "," (Array_sort (pretty <$> (entry_rank <$> rs)))) "1,2,3"
  && Nat.eqb (Set_size (entry_stall_id <$> rs)) 3.

(** One part of a handler run to completion on its own connection to a
    healthy store.  Requests interleave at their [await]s, so a part of one
    request can run between two parts of another. *)
Definition run_part {A} (m : M A) (d : db) : outcome A * db :=
  let '(r, s) := m no_faults (connect d) in (r, committed s).

Definition StudentNotFound : response :=
  errorResponse "Student not found. Please login again." 404.

Definition FeedbackStallNotFound : response :=
  errorResponse "Stall not found" 404.

(** All writes of an accepted feedback, applied in statement order. *)
Definition apply_feedback (user_id stall_id : string) (rating : Z)
    (comment : option string) (d : db) : db :=
  sql_count_feedback stall_id
    (sql_count_given user_id
       (sql_insert_feedback
          {| feedback_student_id := user_id; feedback_stall_id := stall_id;
             feedback_rating := rating; feedback_comment := or_null comment |}
          d)).

Definition feedback_count (user_id : string) (d : db) : Z :=
  Z.of_nat (length (feedbacks_of user_id d)).

Definition reviewed (user_id stall_id : string) (d : db) : option feedback :=
  head (filter (λ f, feedback_stall_id f = stall_id) (feedbacks_of user_id d)).

(** The order of the checks as the specification lists them: presence,
    range, (participant), check-in, quota, stall existence, duplicate.
    Each check alone says whether it rejects. *)
Definition feedback_checks (user_id : string) (stall_id : option string)
    (rating : option Z) : list (db → option response) :=
  [ (λ _, if falsy_string stall_id || falsy_number rating
          then Some RatingRequired else None);
    (λ _, if (default 0 rating <? 1) || (default 0 rating >? 5)
          then Some OutOfRange else None);
    (λ d, if students d !! user_id is Some _ then None
          else Some StudentNotFound);
    (λ d, if is_inside_event <$> students d !! user_id is Some false
          then Some NotCheckedIn else None);
    (λ d, if 200 <=? feedback_count user_id d
          then Some QuotaExceeded else None);
    (λ d, if stalls d !! default "" stall_id is Some _ then None
          else Some FeedbackStallNotFound);
    (λ d, if reviewed user_id (default "" stall_id) d is Some _
          then Some AlreadyReviewed else None) ].

(** The rejection of the first check that rejects, if any does. *)
Definition first_rejection (checks : list (db → option response)) (d : db)
  : option response :=
  head (omap (λ check, check d) checks).

(** The sample store after participant u2 has left feedback at 199 other
    stalls. *)
Definition busy_db : db :=
  {| students := students sample_db; stalls := stalls sample_db;
     volunteers := volunteers sample_db; rankings := [];
     feedbacks :=
       (λ i, {| feedback_student_id := "u2";
                feedback_stall_id := "x" +:+ pretty i;
                feedback_rating := 5; feedback_comment := None |})
       <$> seq 0 199 |}.

(** ** Scan sequences *)

(** [n] scans of the same token by the same volunteer, one after the other
    on a healthy store; the results are listed oldest first. *)
Fixpoint scan_times (verifyStudentQRToken : string → option string)
    (n : nat) (volunteer_id qr_code_token : string) (d : db)
  : list (outcome (response + direction)) * db :=
  match n with
  | O => ([], d)
  | S n' =>
    let first :=
      run_part (scanStudentQR verifyStudentQRToken volunteer_id qr_code_token) d in
    let rest :=
      scan_times verifyStudentQRToken n' volunteer_id qr_code_token first.2 in
    (first.1 :: rest.1, rest.2)
  end.

(** ENTRY, EXIT, ENTRY, ... from outside; EXIT, ENTRY, ... from inside. *)
Fixpoint alternating (inside : bool) (n : nat) : list direction :=
  match n with
  | O => []
  | S n' => (if inside then EXIT else ENTRY) :: alternating (negb inside) n'
  end.

(** A toy token decoder for the sample participant. *)
Definition sample_decoder (token : string) : option string :=
  if String.eqb token "qr-u1" then Some "2024SGTU10001" else None.

(** The conditions under which a scan of the token goes through: the token
    decodes to the registration number of exactly one participant row, and
    the scanning volunteer, if registered, is active. *)
Definition scannable (verifyStudentQRToken : string → option string)
    (volunteer_id qr_code_token id : string) (d : db) : Prop :=
  ∃ student,
    students d !! id = Some student ∧
    verifyStudentQRToken qr_code_token = Some (registration_no student) ∧
    (∀ id' s', students d !! id' = Some s' →
       registration_no s' = registration_no student → id' = id) ∧
    (∀ v, volunteers d !! volunteer_id = Some v → is_active v = true).

(** A toy keyed signature and the identity encoding, to run the codec. *)
Definition sample_sign (key : string) (c : TokenCodec.IdentityClaim) : string :=
  key +:+ ":" +:+ TokenCodec.subject_id c +:+ ":" +:+
  pretty (TokenCodec.issued_window c) +:+ ":" +:+ TokenCodec.nonce c.

Definition sample_generate : string → Z → string → TokenCodec.SignedClaim :=
  TokenCodec.generateParticipantToken 30 "secret" sample_sign
    TokenCodec.SignedClaim id.

Definition sample_verify
  : TokenCodec.SignedClaim → Z → TokenCodec.TokenError + string :=
  TokenCodec.verifyParticipantToken 30 1 "secret" sample_sign
    TokenCodec.SignedClaim Some.

(** ** Reference points for stall tokens *)







(** ** Forward moves of the store *)

(** A row after a forward move: the identity columns are the same, the
    completion flag is not unset and the counters are not lower. *)
Definition student_advances (s s' : student) : Prop :=
  registration_no s' = registration_no s ∧
  school_id s' = school_id s ∧
  (has_completed_ranking s = true → has_completed_ranking s' = true) ∧
  total_feedback_given s ≤ total_feedback_given s'.

Definition stall_advances (st st' : stall) : Prop :=
  stall_number st' = stall_number st ∧
  stall_name st' = stall_name st ∧
  stall_school_id st' = stall_school_id st ∧
  qr_code_token st' = qr_code_token st ∧
  rank_1_votes st ≤ rank_1_votes st' ∧
  rank_2_votes st ≤ rank_2_votes st' ∧
  rank_3_votes st ≤ rank_3_votes st' ∧
  total_feedback_count st ≤ total_feedback_count st'.

Definition volunteer_advances (v v' : volunteer) : Prop :=
  is_active v' = is_active v ∧
  total_scans_performed v ≤ total_scans_performed v'.

(** A store after a forward move: the same participants, stalls and
    volunteers exist, each row advanced, and the ranking and feedback rows
    of before are still there, in place, possibly followed by new ones. *)
Definition advances (d d' : db) : Prop :=
  (∀ id, option_Forall2 student_advances (students d !! id) (students d' !! id)) ∧
  (∀ id, option_Forall2 stall_advances (stalls d !! id) (stalls d' !! id)) ∧
  (∀ id, option_Forall2 volunteer_advances
           (volunteers d !! id) (volunteers d' !! id)) ∧
  rankings d `prefix_of` rankings d' ∧
  feedbacks d `prefix_of` feedbacks d'.

(** In a session whose open transaction, if any, is [R]-related to the
    committed store ... *)
Definition settled (R : relation db) (s : session) : Prop :=
  ∀ w, pending s = Some w → R (committed s) w.

(** ... a computation respects [R] when, whatever statements are rejected,
    the committed store it leaves and every committed store observable
    while it runs are [R]-related to the committed store it started from. *)
Definition respects (R : relation db) {A} (m : M A) : Prop :=
  ∀ faults s, settled R s →
    R (committed s) (committed (m faults s).2) ∧
    settled R (m faults s).2 ∧
    ∃ new, observed (m faults s).2 = new ++ observed s ∧
           Forall (R (committed s)) new.

(** * Properties *)

(** ** The session monad *)

Lemma tick_committed s c p : committed (tick s c p) = c.
Proof. reflexivity. Qed.

Lemma all_or_nothing_before d a : all_or_nothing d a d.
Proof. by left. Qed.

Lemma all_or_nothing_after d a : all_or_nothing d a a.
Proof. by right. Qed.

#[local] Hint Resolve all_or_nothing_before all_or_nothing_after : core.

Lemma bind_run {A B} (m : M A) (k : A → M B) faults s :
  (m ≫= k) faults s =
  match m faults s with
  | (Ok a, s') => k a faults s'
  | (Throw e, s') => (Throw e, s')
  end.
Proof. reflexivity. Qed.

Lemma execute_run f faults s :
  execute f faults s =
  if faults (issued s) then (Throw db_error, tick s (committed s) (pending s))
  else match pending s with
       | Some w => (Ok tt, tick s (committed s) (Some (f w)))
       | None => (Ok tt, tick s (f (committed s)) None)
       end.
Proof.
  unfold execute, query, working. destruct (faults (issued s)); [done|].
  by destruct (pending s).
Qed.

Lemma select_run {A} (f : db → A) faults s :
  select f faults s =
  if faults (issued s) then (Throw db_error, tick s (committed s) (pending s))
  else (Ok (f (working s)), tick s (committed s) (pending s)).
Proof.
  unfold select, query, working. destruct (faults (issued s)); [done|].
  by destruct (pending s).
Qed.

Lemma votes_in_transaction faults d a rs : ∀ s w,
  committed s = d → pending s = Some w →
  Forall (all_or_nothing d a) (observed s) →
  ∃ s',
    committed s' = d ∧ Forall (all_or_nothing d a) (observed s') ∧
    ((for_of rs (λ r, execute (sql_count_vote r)) faults s = (Ok tt, s') ∧
      pending s' = Some (foldl (λ d r, sql_count_vote r d) w rs) ∧
      issued s' = (issued s + length rs)%nat ∧
      healthy faults (issued s) (length rs))
     ∨ (∃ e, for_of rs (λ r, execute (sql_count_vote r)) faults s = (Throw e, s'))).
Proof.
  induction rs as [|r rs IH]; intros s w Hc Hp Ho.
  - exists s. split; [done|]. split; [done|]. left.
    split; [done|]. split; [done|]. split; [cbn; lia|].
    intros k ?; cbn in *; lia.
  - cbn [for_of]. rewrite bind_run, execute_run.
    destruct (faults (issued s)) eqn:Hf.
    + eexists. split; [|split; [|right; eauto]]; cbn; [done|].
      constructor; [rewrite Hc; auto | done].
    + rewrite Hp.
      destruct (IH (tick s (committed s) (Some (sql_count_vote r w)))
                  (sql_count_vote r w)) as (s' & Hc' & Ho' & Hres);
        [done | done | constructor; [rewrite Hc; auto | done] |].
      exists s'. split; [done|]. split; [done|].
      destruct Hres as [(Hrun & Hp' & Hi & Hh) | (e & Hrun)].
      * left. rewrite Hrun. split; [done|]. split; [done|]. split.
        -- rewrite Hi. cbn. lia.
        -- intros k Hk. destruct (decide (k = issued s)) as [->|]; [done|].
           apply Hh. cbn in *. lia.
      * right. exists e. by rewrite Hrun.
Qed.

Lemma rollback_rethrow faults s e :
  ∃ e' s', (ROLLBACK;; throw e : M response) faults s = (Throw e', s') ∧
    committed s' = committed s ∧ observed s' = committed s :: observed s.
Proof.
  rewrite bind_run. unfold ROLLBACK, throw.
  destruct (faults (issued s)); eauto.
Qed.

Lemma ranking_transaction_atomic faults user_id rs s :
  pending s = None →
  let d := committed s in
  let a := apply_ranking user_id rs d in
  Forall (all_or_nothing d a) (observed s) →
  ∀ r s', ranking_transaction user_id rs faults s = (r, s') →
    Forall (all_or_nothing d a) (observed s') ∧
    (committed s' = d ∨
     committed s' = a ∧ healthy faults (issued s) (length rs + 4)) ∧
    (∀ resp, r = Ok resp →
       committed s' = a ∧
       resp = successResponse (RankingsSubmitted (sql_ranked_stalls user_id a))
                "School rankings submitted" 201).
Proof.
  intros Hp d a Ho r s'. unfold ranking_transaction, try_catch.
  set (h := λ error : string, (ROLLBACK;; throw error : M response)).
  assert (Hthrow : ∀ e s1, committed s1 = d →
    Forall (all_or_nothing d a) (observed s1) →
    h e faults s1 = (r, s') →
    Forall (all_or_nothing d a) (observed s') ∧
    (committed s' = d ∨
     committed s' = a ∧ healthy faults (issued s) (length rs + 4)) ∧
    (∀ resp, r = Ok resp →
       committed s' = a ∧
       resp = successResponse (RankingsSubmitted (sql_ranked_stalls user_id a))
                "School rankings submitted" 201)).
  { intros e s1 Hc1 Ho1 Hrun. subst h. cbn beta in Hrun.
    destruct (rollback_rethrow faults s1 e) as (e' & s2 & Hr & Hc2 & Ho2).
    rewrite Hr in Hrun. injection Hrun as <- <-.
    rewrite Ho2, Hc2, Hc1. split_and!; [by constructor | by left | done]. }
  rewrite bind_run. unfold BEGIN at 1.
  destruct (faults (issued s)) eqn:F0.
  { apply Hthrow; cbn; [done | repeat (constructor; [by left|]); done]. }
  unfold working. rewrite Hp. cbn [default].
  rewrite bind_run. unfold Ranking_bulkCreate. rewrite execute_run. cbn [issued tick pending committed].
  destruct (faults (S (issued s))) eqn:F1.
  { apply Hthrow; cbn; [done | repeat (constructor; [by left|]); done]. }
  rewrite bind_run, execute_run. cbn [issued tick pending committed].
  destruct (faults (S (S (issued s)))) eqn:F2.
  { apply Hthrow; cbn; [done | repeat (constructor; [by left|]); done]. }
  rewrite bind_run.
  match goal with |- context [for_of rs ?b faults ?s0] =>
    destruct (votes_in_transaction faults d a rs s0
      (sql_mark_completed user_id
         (sql_insert_rankings (rankingData user_id rs) d)))
      as (s1 & Hc1 & Ho1 & [(Hrun & Hp1 & Hi1 & Hh1) | (e & Hrun)]);
      [done | done | cbn; repeat (constructor; [by left|]); done | |]
  end.
  2:{ rewrite Hrun. by apply Hthrow. }
  rewrite Hrun. rewrite bind_run. unfold COMMIT at 1.
  destruct (faults (issued s1)) eqn:F3.
  { apply Hthrow; cbn; [done | repeat (constructor; [by left|]); done]. }
  unfold working. rewrite Hp1. cbn [default]. fold a.
  assert (Hh : healthy faults (issued s) (length rs + 4)).
  { intros k Hk. cbn in Hi1.
    destruct (decide (k = issued s)) as [->|]; [done|].
    destruct (decide (k = S (issued s))) as [->|]; [done|].
    destruct (decide (k = S (S (issued s)))) as [->|]; [done|].
    destruct (decide (k = issued s1)) as [->|]; [done|].
    apply Hh1. cbn. lia. }
  rewrite bind_run, select_run. cbn [issued tick pending committed].
  destruct (faults (S (issued s1))) eqn:F4.
  { subst h. cbn beta.
    match goal with |- context [(ROLLBACK;; throw ?e) faults ?s0] =>
      destruct (rollback_rethrow faults s0 e) as (e' & s2 & Hr & Hc2 & Ho2)
    end.
    rewrite Hr. intros [= <- <-]. rewrite Ho2, Hc2. cbn.
    split_and!; [by repeat constructor | by right | done]. }
  unfold working. cbn. intros [= <- <-]. cbn.
  split_and!; [by repeat constructor | by right |].
  intros resp [= <-]. done.
Qed.

#[local] Ltac returned n :=
  intros [= <- <-];
  split_and!;
    [ done | done
    | exists n; cbn; split_and!; [lia | lia | done]
    | try done
    | try (intros ? [= <-]; eauto) ].

(** The checks before the transaction only read: they leave the store, the
    open-transaction state and the observations (up to repeats of the same
    store) as they were; they fall through only for a well-formed request
    of a participant whose row was read with the flag unset, after both
    reads were served; and what they return early is an error response. *)
Lemma ranking_checks_read_only faults user_id rs s :
  ∀ r s1, ranking_checks user_id rs faults s = (r, s1) →
    committed s1 = committed s ∧ pending s1 = pending s ∧
    (∃ n, (n ≤ 2)%nat ∧ issued s1 = (issued s + n)%nat ∧
          observed s1 = replicate n (committed s) ++ observed s) ∧
    (r = Ok None →
       issued s1 = (issued s + 2)%nat ∧ length rs = 3%nat ∧
       healthy faults (issued s) 2 ∧ well_formed rs = true ∧
       ∃ student, students (working s) !! user_id = Some student ∧
                  has_completed_ranking student = false) ∧
    (∀ resp, r = Ok (Some resp) → ∃ message status,
       resp = errorResponse message status).
Proof.
  intros r s1. unfold ranking_checks, well_formed.
  destruct (length rs =? 3)%nat eqn:Hlen; cbn [negb andb]; [|returned 0%nat].
  destruct (String.eqb _ "1,2,3"); cbn [negb andb]; [|returned 0%nat].
  destruct (Set_size _ =? 3)%nat; cbn [negb andb]; [|returned 0%nat].
  apply Nat.eqb_eq in Hlen.
  rewrite bind_run. unfold Student_findById. rewrite select_run.
  destruct (faults (issued s)) eqn:F0; [returned 1%nat|].
  destruct (students (working s) !! user_id) as [student|]; [|returned 1%nat].
  destruct (has_completed_ranking student) eqn:Hflag; [returned 1%nat|].
  rewrite bind_run, select_run. cbn [issued tick committed pending].
  destruct (faults (S (issued s))) eqn:F1; [returned 2%nat|].
  assert (Hh : healthy faults (issued s) 2).
  { intros k Hk. destruct (decide (k = issued s)) as [->|]; [done|].
    replace k with (S (issued s)) by lia. done. }
  destruct (negb (length _ =? 3)%nat); [returned 2%nat|].
  destruct (0 <? length _)%nat; [returned 2%nat|].
  returned 2%nat. intros _. cbn. split_and!; [lia | done | done | done | eauto].
Qed.

(** The run of a submission under any fault schedule. *)
Lemma ranking_run faults d user_id rs :
  let run := submitSchoolRanking user_id rs faults (connect d) in
  let after := apply_ranking user_id rs d in
  Forall (all_or_nothing d after) (committed run.2 :: observed run.2) ∧
  ((∃ k, (k < 9)%nat ∧ faults k = true) → committed run.2 = d) ∧
  (∀ data message status,
     run.1 = Ok (successResponse data message status) →
     committed run.2 = after ∧ well_formed rs = true ∧
     ∃ student, students d !! user_id = Some student ∧
                has_completed_ranking student = false).
Proof.
  cbn zeta. unfold submitSchoolRanking, handler, try_catch.
  rewrite bind_run.
  destruct (ranking_checks user_id rs faults (connect d)) as [early s1] eqn:Hchecks.
  destruct (ranking_checks_read_only _ _ _ _ _ _ Hchecks)
    as (Hc1 & Hp1 & (n & _ & _ & Ho1) & Hfall & Herr).
  cbn in Hc1, Hp1, Ho1. rewrite app_nil_r in Ho1.
  assert (Hobs1 : Forall (all_or_nothing d (apply_ranking user_id rs d)) (observed s1)).
  { rewrite Ho1. apply Forall_replicate. by left. }
  destruct early as [[resp|]|e]; cbn.
  - split_and!; [constructor; [by left | done] | done |].
    intros data message status [= ->].
    by destruct (Herr _ eq_refl) as (? & ? & ?).
  - destruct (Hfall eq_refl) as (Hi1 & Hlen & Hh & Hwf & Hstudent).
    cbn in Hi1, Hh, Hstudent.
    destruct (ranking_transaction user_id rs faults s1) as [r s2] eqn:Htxn.
    destruct (ranking_transaction_atomic faults user_id rs s1 Hp1) with (r := r) (s' := s2)
      as (Ho2 & Hc2 & Hok); [by rewrite Hc1 | done |].
    rewrite Hc1 in Ho2, Hc2, Hok.
    assert (Hc : committed s2 = d ∨ committed s2 = apply_ranking user_id rs d)
      by (destruct Hc2 as [?|[? _]]; auto).
    assert (Hfault : (∃ k, (k < 9)%nat ∧ faults k = true) → committed s2 = d).
    { intros (k & Hk & Hf). destruct Hc2 as [?|[_ Hh2]]; [done|]. exfalso.
      destruct (decide (k < 2)%nat).
      - rewrite Hh in Hf; [done | lia].
      - rewrite Hh2 in Hf; [done | lia]. }
    destruct r as [resp|e]; cbn.
    + split_and!; [by constructor | done |].
      intros data message status [= ->]. by destruct (Hok _ eq_refl).
    + split_and!; [by constructor | done | done].
  - split_and!; [constructor; [by left | done] | done | done].
Qed.

Lemma for_of_app {A} (l1 l2 : list A) (body : A → M unit) faults s :
  for_of (l1 ++ l2) body faults s =
  (for_of l1 body;; for_of l2 body) faults s.
Proof.
  revert s. induction l1 as [|x l1 IH]; intros s; [done|].
  cbn [app for_of]. rewrite !bind_run.
  destruct (body x faults s) as [[[]|e] s1]; [|done].
  rewrite IH. by rewrite bind_run.
Qed.

Lemma try_catch_run {A} (m : M A) (h : string → M A) faults s :
  try_catch m h faults s =
  match m faults s with
  | (Ok a, s') => (Ok a, s')
  | (Throw e, s') => h e faults s'
  end.
Proof. reflexivity. Qed.

(** Cutting the block changes nothing: the two parts in sequence inside
    the [try] are the transaction of the handler. *)
Lemma ranking_transaction_cut user_id rs k faults s :
  ranking_transaction user_id rs faults s =
  try_catch
    (ranking_transaction_begun user_id rs k;;
     ranking_transaction_rest user_id rs k)
    (λ error, ROLLBACK;; throw error) faults s.
Proof.
  unfold ranking_transaction, ranking_transaction_begun,
    ranking_transaction_rest.
  rewrite !try_catch_run. rewrite !bind_run.
  destruct (BEGIN faults s) as [[[]|e0] s0]; [|done].
  rewrite !bind_run.
  destruct (Ranking_bulkCreate _ faults s0) as [[[]|e1] s1]; [|done].
  rewrite !bind_run.
  destruct (execute _ faults s1) as [[[]|e2] s2]; [|done].
  rewrite !bind_run.
  rewrite <- (take_drop k rs) at 1. rewrite for_of_app, bind_run.
  destruct (for_of (take k rs) _ faults s2) as [[[]|e3] s3]; [|done].
  rewrite !bind_run. done.
Qed.

(** Whatever the store does, the transaction block answers with the 201 or
    throws: it holds no check of its own. *)
Lemma ranking_transaction_never_rejects faults user_id rs d resp :
  (ranking_transaction user_id rs faults (connect d)).1 = Ok resp →
  resp = successResponse
           (RankingsSubmitted
              (sql_ranked_stalls user_id (apply_ranking user_id rs d)))
           "School rankings submitted" 201.
Proof.
  destruct (ranking_transaction user_id rs faults (connect d))
    as [r s'] eqn:Hrun.
  destruct (ranking_transaction_atomic faults user_id rs (connect d) eq_refl)
    with (r := r) (s' := s') as (_ & _ & Hok); [constructor | done |].
  cbn. intros ->. by destruct (Hok _ eq_refl).
Qed.

(** C1. The writes of a ranking submission are not applied as one unit for
    the other requests.  The transaction block of participant u1's
    submission on the sample store is the two parts
    [ranking_transaction_begun] and [ranking_transaction_rest] in sequence;
    two reads of other requests served between them, after the first
    counter update, return the row of s1 with the vote counted and the row
    of s2 without it: the first as in the store with all writes, the
    second as in the store before.  When the rest is served the submission
    is answered 201 and all writes are committed; when the second counter
    update is rejected the block rolls back to the store before, so the
    vote that was read was never part of any committed store. *)
Theorem ranking_transaction_not_isolated :
  let rollback := λ error : string, (ROLLBACK;; throw error : M response) in
  let after := apply_ranking "u1" sample_ranking sample_db in
  let checks :=
    ranking_checks "u1" sample_ranking no_faults (connect sample_db) in
  let begun :=
    ranking_transaction_begun "u1" sample_ranking 1 no_faults checks.2 in
  let seen1 := Stall_findById "s1" no_faults begun.2 in
  let seen2 := Stall_findById "s2" no_faults seen1.2 in
  let rest := ranking_transaction_rest "u1" sample_ranking 1 in
  let completed := try_catch rest rollback no_faults seen2.2 in
  let failed := try_catch rest rollback (fault_at 8) seen2.2 in
  (∀ faults s,
     ranking_transaction "u1" sample_ranking faults s =
     try_catch (ranking_transaction_begun "u1" sample_ranking 1;; rest)
       rollback faults s) ∧
  checks.1 = Ok None ∧ begun.1 = Ok tt ∧ committed begun.2 = sample_db ∧
  seen1.1 = Ok (stalls after !! "s1") ∧
  seen2.1 = Ok (stalls sample_db !! "s2") ∧
  rank_1_votes <$> stalls sample_db !! "s1" = Some 0 ∧
  rank_1_votes <$> stalls after !! "s1" = Some 1 ∧
  rank_2_votes <$> stalls sample_db !! "s2" = Some 0 ∧
  rank_2_votes <$> stalls after !! "s2" = Some 1 ∧
  (∃ data,
     completed.1 = Ok (successResponse data "School rankings submitted" 201)) ∧
  committed completed.2 = after ∧ pending completed.2 = None ∧
  failed.1 = Throw db_error ∧
  committed failed.2 = sample_db ∧ pending failed.2 = None.
Proof.
  cbn zeta. split.
  { intros faults s. apply ranking_transaction_cut. }
  vm_compute. split_and!; try reflexivity. eexists; reflexivity.
Qed.

(** On a healthy store the sample submission succeeds and leaves exactly
    the store with all writes applied, which differs from the store
    before. *)
Example sample_ranking_applied :
  ∃ data,
    serve (submitSchoolRanking "u1" sample_ranking) sample_db =
    (successResponse data "School rankings submitted" 201,
     apply_ranking "u1" sample_ranking sample_db) ∧
    rankings (apply_ranking "u1" sample_ranking sample_db) ≠ rankings sample_db.
Proof. eexists. split; [vm_compute; reflexivity | vm_compute; discriminate]. Qed.

(** ** The completion flag is read before the transaction *)

(** C2. The completion flag is not checked inside the transaction.  Two
    submissions A and B of participant u1 interleave at their [await]s:
    both run their checks (each reads the flag as unset), then A's
    transaction runs, then B's.  When B's transaction executes the flag is
    already set, yet nothing in it reads the flag: whatever the store
    does, B is not answered AlreadySubmitted.  If the store refuses B's
    insert the block throws and rolls back; if it serves every statement B
    is answered 201, three more ranking rows are inserted and stall s1 has
    two first-rank votes of one participant. *)
Theorem ranking_flag_not_rechecked :
  let checksA := run_part (ranking_checks "u1" sample_ranking) sample_db in
  let checksB := run_part (ranking_checks "u1" sample_ranking) checksA.2 in
  let txnA := run_part (ranking_transaction "u1" sample_ranking) checksB.2 in
  let txnB := run_part (ranking_transaction "u1" sample_ranking) txnA.2 in
  let refusedB :=
    ranking_transaction "u1" sample_ranking (fault_at 1) (connect txnA.2) in
  checksA.1 = Ok None ∧ checksB.1 = Ok None ∧
  has_completed_ranking <$> students txnA.2 !! "u1" = Some true ∧
  (∀ faults,
     (ranking_transaction "u1" sample_ranking faults (connect txnA.2)).1
     ≠ Ok AlreadySubmitted) ∧
  refusedB.1 = Throw db_error ∧ committed refusedB.2 = txnA.2 ∧
  (∃ data, txnB.1 = Ok (successResponse data "School rankings submitted" 201)) ∧
  length (rankings txnA.2) = 3%nat ∧ length (rankings txnB.2) = 6%nat ∧
  rank_1_votes <$> stalls txnB.2 !! "s1" = Some 2.
Proof.
  cbn zeta. split_and!.
  4:{ intros faults Hrun.
      apply ranking_transaction_never_rejects in Hrun. discriminate Hrun. }
  all: vm_compute; try reflexivity.
  eexists; reflexivity.
Qed.

Lemma ranking_rejected_when_flag_set faults d user_id rs student :
  well_formed rs = true →
  faults 0%nat = false →
  students d !! user_id = Some student →
  has_completed_ranking student = true →
  submitSchoolRanking user_id rs faults (connect d) =
  (Ok AlreadySubmitted,
   {| committed := d; pending := None; issued := 1; observed := [d] |}).
Proof.
  unfold well_formed. intros Hwf F0 Hs Hflag.
  apply andb_prop in Hwf as [Hwf H3]. apply andb_prop in Hwf as [H1 H2].
  unfold submitSchoolRanking, handler, try_catch, ranking_checks.
  rewrite H1, H2, H3. cbn [negb].
  rewrite !bind_run. unfold Student_findById. rewrite select_run.
  unfold connect, working. cbn [issued pending committed default].
  rewrite F0, Hs, Hflag. reflexivity.
Qed.

(** ** Shape checks of a ranking request *)

Lemma remove_dups_id {A} `{EqDecision A} (l : list A) :
  NoDup l → remove_dups l = l.
Proof.
  induction 1 as [|x l Hx _ IH]; [done|].
  cbn. destruct (decide_rel elem_of x l); [done|]. by rewrite IH.
Qed.

Lemma remove_dups_length_le {A} `{EqDecision A} (l : list A) :
  (length (remove_dups l) ≤ length l)%nat.
Proof.
  induction l as [|x l IH]; [done|]. cbn.
  destruct (decide_rel elem_of x l); cbn; lia.
Qed.

Lemma remove_dups_length_lt {A} `{EqDecision A} (l : list A) :
  ¬ NoDup l → (length (remove_dups l) < length l)%nat.
Proof.
  induction l as [|x l IH]; intros Hdup.
  - destruct Hdup. constructor.
  - cbn. destruct (decide_rel elem_of x l) as [Hin|Hout]; cbn.
    + pose proof (remove_dups_length_le l). lia.
    + assert (Hl : ¬ NoDup l) by (intros ?; apply Hdup; by constructor).
      apply IH in Hl. lia.
Qed.

Lemma Set_size_remove_dups (xs : list string) :
  Set_size xs = length (remove_dups xs).
Proof.
  unfold Set_size.
  rewrite <- (size_list_to_set (C := gset string) (remove_dups xs))
    by apply NoDup_remove_dups.
  f_equal. apply leibniz_equiv. intros x.
  by rewrite !elem_of_list_to_set, elem_of_remove_dups.
Qed.

Lemma Set_size_NoDup (xs : list string) :
  Set_size xs = length xs ↔ NoDup xs.
Proof.
  rewrite Set_size_remove_dups. split.
  - intros Hlen. destruct (decide (NoDup xs)) as [|Hdup]; [done|].
    apply remove_dups_length_lt in Hdup. lia.
  - intros Hnd. by rewrite remove_dups_id.
Qed.

(** The rank check accepts every arrangement of the ranks 1, 2, 3. *)
Lemma rank_check_permutation (ranks : list Z) :
  ranks ≡ₚ [1; 2; 3] →
  String.eqb (Array_join "," (Array_sort (pretty <$> ranks))) "1,2,3" = true.
Proof.
  intros Hperm. symmetry in Hperm. apply permutations_Permutation in Hperm.
  vm_compute permutations in Hperm.
  repeat (apply elem_of_cons in Hperm as [->|Hperm]; [reflexivity|]).
  by apply elem_of_nil in Hperm.
Qed.

(** ** Vote counters *)

Lemma count_votes_students rs : ∀ d,
  students (foldl (λ d r, sql_count_vote r d) d rs) = students d.
Proof. induction rs as [|r rs IH]; intros d; [done|]. cbn. by rewrite IH. Qed.

Lemma apply_ranking_students user_id rs d :
  students (apply_ranking user_id rs d) = alter set_completed user_id (students d).
Proof. unfold apply_ranking. by rewrite count_votes_students. Qed.

(** The counter of the assigned rank grows by one, the other two stay, and
    the stored score is the weighted sum of the counters before the
    increment. *)
Lemma set_votes_counters rank st :
  rank ∈ [1; 2; 3] →
  let st' := set_votes rank st in
  rank_1_votes st' = rank_1_votes st + (if decide (rank = 1) then 1 else 0) ∧
  rank_2_votes st' = rank_2_votes st + (if decide (rank = 2) then 1 else 0) ∧
  rank_3_votes st' = rank_3_votes st + (if decide (rank = 3) then 1 else 0) ∧
  weighted_score st' =
    5 * rank_1_votes st + 3 * rank_2_votes st + 1 * rank_3_votes st.
Proof.
  intros Hrank. repeat (apply elem_of_cons in Hrank as [->|Hrank]);
    [| | | by apply elem_of_nil in Hrank]; cbn; repeat case_decide; lia.
Qed.

(** C4. The sample submission on fresh stalls: stall s1, ranked first, ends
    with [rank_1_votes = 1] and [weighted_score = 0], where the weighted sum
    of its updated counters is 5; likewise s2 (3) and s3 (1). *)
Theorem ranking_weighted_score_stale :
  let d' := (serve (submitSchoolRanking "u1" sample_ranking) sample_db).2 in
  (λ st, (rank_1_votes st, rank_2_votes st, rank_3_votes st, weighted_score st))
    <$> stalls d' !! "s1" = Some (1, 0, 0, 0) ∧
  (λ st, (rank_1_votes st, rank_2_votes st, rank_3_votes st, weighted_score st))
    <$> stalls d' !! "s2" = Some (0, 1, 0, 0) ∧
  (λ st, (rank_1_votes st, rank_2_votes st, rank_3_votes st, weighted_score st))
    <$> stalls d' !! "s3" = Some (0, 0, 1, 0) ∧
  ¬ (∀ id st, stalls d' !! id = Some st →
       weighted_score st =
       5 * rank_1_votes st + 3 * rank_2_votes st + 1 * rank_3_votes st).
Proof.
  split_and!; [vm_compute; reflexivity..|].
  intros H. specialize (H "s1" (set_votes 1 (sample_stall "CS-001" "AI" "SCSE"
    "STALL_CS-001_1700000000000_abcdeq"))).
  vm_compute in H. specialize (H eq_refl). discriminate H.
Qed.
(** ** Rejections of a ranking submission *)

Lemma well_formed_elim rs :
  well_formed rs = true →
  length rs = 3%nat ∧
  String.eqb
    (Array_join "," (Array_sort (pretty <$> (entry_rank <$> rs)))) "1,2,3" = true ∧
  NoDup (entry_stall_id <$> rs).
Proof.
  unfold well_formed. intros Hwf.
  apply andb_prop in Hwf as [Hwf H3]. apply andb_prop in Hwf as [H1 H2].
  apply Nat.eqb_eq in H1, H3. split_and!; [done..|].
  apply Set_size_NoDup. by rewrite H3, length_fmap.
Qed.

(** When every id of the array is the id of a row, the rows selected are
    those rows, in some order. *)
Lemma stalls_by_ids_found d rs sts :
  NoDup (entry_stall_id <$> rs) →
  Forall2 (λ r st, stalls d !! entry_stall_id r = Some st) rs sts →
  sql_stalls_by_ids (entry_stall_id <$> rs) d ≡ₚ sts.
Proof.
  intros Hnd Hall. unfold sql_stalls_by_ids.
  assert (Hzip : (zip (entry_stall_id <$> rs) sts).*2 = sts).
  { apply snd_zip. rewrite length_fmap.
    by rewrite (Forall2_length _ _ _ Hall). }
  rewrite <- Hzip. apply fmap_Permutation.
  assert (Hfst : (zip (entry_stall_id <$> rs) sts).*1 = entry_stall_id <$> rs).
  { apply fst_zip. rewrite length_fmap.
    by rewrite (Forall2_length _ _ _ Hall). }
  apply NoDup_Permutation.
  - apply NoDup_filter, NoDup_map_to_list.
  - apply (NoDup_fmap_1 fst). by rewrite Hfst.
  - intros [id st]. rewrite list_elem_of_filter, elem_of_map_to_list. cbn.
    split.
    + intros [Hid Hst]. apply list_elem_of_fmap in Hid as (r & -> & Hr).
      apply list_elem_of_lookup in Hr as [i Hi].
      destruct (Forall2_lookup_l _ _ _ _ _ Hall Hi) as (st' & Hi' & Hst').
      rewrite Hst in Hst'. injection Hst' as <-.
      apply list_elem_of_lookup. exists i.
      apply lookup_zip_with_Some. exists (entry_stall_id r), st.
      by rewrite list_lookup_fmap, Hi.
    + intros Hin. apply list_elem_of_lookup in Hin as [i Hi].
      apply lookup_zip_with_Some in Hi as (id' & st' & [= <- <-] & Hid & Hst).
      rewrite list_lookup_fmap in Hid.
      destruct (rs !! i) as [r|] eqn:Hr; [|done]. injection Hid as <-.
      destruct (Forall2_lookup_l _ _ _ _ _ Hall Hr) as (st'' & Hi' & Hst').
      rewrite Hst in Hi'. injection Hi' as <-.
      split; [|done]. apply list_elem_of_fmap. exists r.
      split; [done|]. by apply list_elem_of_lookup_2 in Hr.
Qed.

Lemma filter_Exists_length {A} (P : A → Prop) `{∀ x, Decision (P x)} (l : list A) :
  Exists P l → (0 <? length (filter P l))%nat = true.
Proof.
  intros Hex. apply Nat.ltb_lt. induction Hex as [x l Hx|x l _ IH].
  - rewrite filter_cons_True by done. cbn. lia.
  - rewrite filter_cons. destruct (decide (P x)); cbn; lia.
Qed.

Lemma ranks_1_1_2_rejected d user_id s1 s2 s3 :
  serve (submitSchoolRanking user_id
           [ {| entry_stall_id := s1; entry_rank := 1 |};
             {| entry_stall_id := s2; entry_rank := 1 |};
             {| entry_stall_id := s3; entry_rank := 2 |} ]) d =
  (InvalidRankSet, d).
Proof. reflexivity. Qed.

Lemma repeated_stall_rejected d user_id rs :
  entry_rank <$> rs ≡ₚ [1; 2; 3] →
  ¬ NoDup (entry_stall_id <$> rs) →
  serve (submitSchoolRanking user_id rs) d = (DuplicateStall, d).
Proof.
  intros Hperm Hdup.
  assert (Hlen : length rs = 3%nat).
  { apply Permutation_length in Hperm. by rewrite length_fmap in Hperm. }
  unfold serve, submitSchoolRanking, handler, try_catch, ranking_checks.
  rewrite Hlen, rank_check_permutation by done. cbn [Nat.eqb negb].
  assert (Hsize : (Set_size (entry_stall_id <$> rs) =? 3)%nat = false).
  { apply Nat.eqb_neq. intros Hsize. apply Hdup, Set_size_NoDup.
    by rewrite Hsize, length_fmap. }
  rewrite Hsize. reflexivity.
Qed.

Lemma cross_school_rejected d user_id rs student sts :
  well_formed rs = true →
  students d !! user_id = Some student →
  has_completed_ranking student = false →
  Forall2 (λ r st, stalls d !! entry_stall_id r = Some st) rs sts →
  Exists (λ st, stall_school_id st ≠ school_id student) sts →
  ∃ invalid,
    invalid ≡ₚ filter (λ st, stall_school_id st ≠ school_id student) sts ∧
    serve (submitSchoolRanking user_id rs) d = (CrossSchoolStall invalid, d).
Proof.
  intros Hwf Hs Hflag Hsts Hex.
  destruct (well_formed_elim rs Hwf) as (Hlen & Hranks & Hnd).
  pose proof (stalls_by_ids_found d rs sts Hnd Hsts) as Hfound.
  assert (Hsize : (Set_size (entry_stall_id <$> rs) =? 3)%nat = true).
  { apply Nat.eqb_eq. apply Set_size_NoDup in Hnd.
    by rewrite Hnd, length_fmap. }
  exists (filter (λ st, stall_school_id st ≠ school_id student)
            (sql_stalls_by_ids (entry_stall_id <$> rs) d)).
  split; [by rewrite Hfound|].
  unfold serve, submitSchoolRanking, handler, try_catch, ranking_checks.
  rewrite Hlen, Hranks, Hsize. cbn [Nat.eqb negb].
  rewrite !bind_run. unfold Student_findById. rewrite select_run.
  unfold connect, working, no_faults. cbn [issued pending committed default].
  rewrite Hs, Hflag. rewrite bind_run, select_run.
  unfold working. cbn [issued tick pending committed default].
  rewrite (Permutation_length Hfound), <- (Forall2_length _ _ _ Hsts), Hlen.
  cbn [Nat.eqb negb].
  rewrite filter_Exists_length; [reflexivity|].
  apply Exists_exists. apply Exists_exists in Hex as (st & Hin & Hst).
  exists st. split; [|done].
  apply list_elem_of_In. rewrite Hfound. by apply list_elem_of_In.
Qed.

Lemma second_submission_rejected d user_id rs data message status d' :
  serve (submitSchoolRanking user_id rs) d =
    (successResponse data message status, d') →
  well_formed rs = true ∧
  ∀ rs', well_formed rs' = true →
    serve (submitSchoolRanking user_id rs') d' = (AlreadySubmitted, d').
Proof.
  unfold serve. intros Hrun.
  destruct (ranking_run no_faults d user_id rs) as (_ & _ & Hok).
  destruct (submitSchoolRanking user_id rs no_faults (connect d))
    as [[resp|e] s] eqn:Hfirst; [|done].
  injection Hrun as -> <-. cbn in Hok.
  destruct (Hok _ _ _ eq_refl) as (Hafter & Hwf & student & Hs & _).
  split; [done|]. intros rs' Hwf'.
  rewrite (ranking_rejected_when_flag_set no_faults (committed s) user_id rs'
             (set_completed student)); [done | done | done | | done].
  by rewrite Hafter, apply_ranking_students, lookup_alter_eq, Hs.
Qed.

(** A stall of another school does not always give CrossSchoolStall: the
    existence check comes first.  Participant u1 of school SCSE ranks s1,
    the stall s4 of school SOE and an id that names no stall; the answer is
    StallNotFound, which is no CrossSchoolStall response. *)
Lemma cross_school_after_existence :
  school_id <$> students sample_db !! "u1" = Some "SCSE" ∧
  stall_school_id <$> stalls sample_db !! "s4" = Some "SOE" ∧
  stalls sample_db !! "s9" = None ∧
  serve (submitSchoolRanking "u1"
           [ {| entry_stall_id := "s1"; entry_rank := 1 |};
             {| entry_stall_id := "s4"; entry_rank := 2 |};
             {| entry_stall_id := "s9"; entry_rank := 3 |} ]) sample_db =
    (StallNotFound, sample_db) ∧
  ∀ invalid, StallNotFound ≠ CrossSchoolStall invalid.
Proof.
  split_and!; [vm_compute; reflexivity.. |].
  intros invalid. unfold StallNotFound, CrossSchoolStall. intros [= _ ?].
Qed.

(** C5 (amended). A submission with ranks [1,1,2] is rejected as
    InvalidRankSet; one with the ranks 1, 2, 3 in any order but a repeated
    stall id as DuplicateStall; a well-formed one by a participant who has
    not ranked yet, over three existing stalls of which some belong to
    another school, as CrossSchoolStall, the response naming exactly the
    stalls of the other schools, in the order the store returned them
    (none is promised); and after a successful submission every further
    well-formed submission of that participant (the same one included) as
    AlreadySubmitted.  Each rejection leaves the store, vote counters
    included, as it was. *)
Theorem ranking_rejections :
  (∀ d user_id s1 s2 s3,
     serve (submitSchoolRanking user_id
              [ {| entry_stall_id := s1; entry_rank := 1 |};
                {| entry_stall_id := s2; entry_rank := 1 |};
                {| entry_stall_id := s3; entry_rank := 2 |} ]) d =
     (InvalidRankSet, d)) ∧
  (∀ d user_id rs,
     entry_rank <$> rs ≡ₚ [1; 2; 3] →
     ¬ NoDup (entry_stall_id <$> rs) →
     serve (submitSchoolRanking user_id rs) d = (DuplicateStall, d)) ∧
  (∀ d user_id rs student sts,
     well_formed rs = true →
     students d !! user_id = Some student →
     has_completed_ranking student = false →
     Forall2 (λ r st, stalls d !! entry_stall_id r = Some st) rs sts →
     Exists (λ st, stall_school_id st ≠ school_id student) sts →
     ∃ invalid,
       invalid ≡ₚ filter (λ st, stall_school_id st ≠ school_id student) sts ∧
       serve (submitSchoolRanking user_id rs) d =
       (CrossSchoolStall invalid, d)) ∧
  (∀ d user_id rs data message status d',
     serve (submitSchoolRanking user_id rs) d =
       (successResponse data message status, d') →
     well_formed rs = true ∧
     ∀ rs', well_formed rs' = true →
       serve (submitSchoolRanking user_id rs') d' = (AlreadySubmitted, d')).
Proof.
  split_and!.
  - apply ranks_1_1_2_rejected.
  - apply repeated_stall_rejected.
  - apply cross_school_rejected.
  - apply second_submission_rejected.
Qed.

Lemma ranking_rejections_witness :
  serve (submitSchoolRanking "u1"
           [ {| entry_stall_id := "s1"; entry_rank := 1 |};
             {| entry_stall_id := "s1"; entry_rank := 3 |};
             {| entry_stall_id := "s3"; entry_rank := 2 |} ]) sample_db =
    (DuplicateStall, sample_db) ∧
  serve (submitSchoolRanking "u1"
           [ {| entry_stall_id := "s1"; entry_rank := 1 |};
             {| entry_stall_id := "s4"; entry_rank := 2 |};
             {| entry_stall_id := "s3"; entry_rank := 3 |} ]) sample_db =
    (CrossSchoolStall
       [sample_stall "ME-001" "Robotics" "SOE" "STALL_ME-001_1700000000000_q7w8eg"],
     sample_db) ∧
  (∃ invalid,
     invalid ≡ₚ
       [sample_stall "ME-001" "Robotics" "SOE" "STALL_ME-001_1700000000000_q7w8eg";
        sample_stall "EE-001" "Drones" "SOE" "STALL_EE-001_1700000000000_d4r5tz"] ∧
     serve (submitSchoolRanking "u1"
              [ {| entry_stall_id := "s1"; entry_rank := 3 |};
                {| entry_stall_id := "s4"; entry_rank := 1 |};
                {| entry_stall_id := "s5"; entry_rank := 2 |} ]) two_foreign_db =
       (CrossSchoolStall invalid, two_foreign_db)) ∧
  serve (submitSchoolRanking "u1" sample_ranking)
        (apply_ranking "u1" sample_ranking sample_db) =
    (AlreadySubmitted, apply_ranking "u1" sample_ranking sample_db).
Proof.
  destruct ranking_rejections as (_ & Hdup & Hcross & Hsecond).
  split_and!.
  - apply Hdup.
    + symmetry. apply permutations_Permutation. vm_compute.
      repeat first [apply list_elem_of_here | apply list_elem_of_further].
    + intros Hnd. apply NoDup_cons_1_1 in Hnd. apply Hnd. apply list_elem_of_here.
  - destruct (Hcross sample_db "u1"
             [ {| entry_stall_id := "s1"; entry_rank := 1 |};
               {| entry_stall_id := "s4"; entry_rank := 2 |};
               {| entry_stall_id := "s3"; entry_rank := 3 |} ]
             (sample_student "2024SGTU10001" "SCSE" false)
             [sample_stall "CS-001" "AI" "SCSE" "STALL_CS-001_1700000000000_abcdeq";
              sample_stall "ME-001" "Robotics" "SOE" "STALL_ME-001_1700000000000_q7w8eg";
              sample_stall "CS-003" "DB" "SCSE" "STALL_CS-003_1700000000000_zz01bq"])
      as (invalid & Hperm & Hrun).
    + vm_compute; reflexivity.
    + vm_compute; reflexivity.
    + reflexivity.
    + repeat constructor.
    + apply Exists_cons_tl, Exists_cons_hd. cbn. discriminate.
    + apply Permutation_singleton_r in Hperm. by rewrite Hperm in Hrun.
  - destruct (Hcross two_foreign_db "u1"
             [ {| entry_stall_id := "s1"; entry_rank := 3 |};
               {| entry_stall_id := "s4"; entry_rank := 1 |};
               {| entry_stall_id := "s5"; entry_rank := 2 |} ]
             (sample_student "2024SGTU10001" "SCSE" false)
             [sample_stall "CS-001" "AI" "SCSE" "STALL_CS-001_1700000000000_abcdeq";
              sample_stall "ME-001" "Robotics" "SOE" "STALL_ME-001_1700000000000_q7w8eg";
              sample_stall "EE-001" "Drones" "SOE" "STALL_EE-001_1700000000000_d4r5tz"])
      as (invalid & Hperm & Hrun).
    + vm_compute; reflexivity.
    + vm_compute; reflexivity.
    + reflexivity.
    + repeat constructor.
    + apply Exists_cons_tl, Exists_cons_hd. cbn. discriminate.
    + exists invalid. split; [exact Hperm | exact Hrun].
  - destruct (Hsecond sample_db "u1" sample_ranking
      (RankingsSubmitted (sql_ranked_stalls "u1" (apply_ranking "u1" sample_ranking sample_db)))
      "School rankings submitted" 201
      (apply_ranking "u1" sample_ranking sample_db)) as [_ Hagain].
    + vm_compute; reflexivity.
    + apply Hagain. vm_compute; reflexivity.
Defined.
(** ** Feedback *)

Lemma query_run {A} (stmt : db → A * db) faults s :
  query stmt faults s =
  if faults (issued s) then (Throw db_error, tick s (committed s) (pending s))
  else match pending s with
       | Some w => (Ok (stmt w).1, tick s (committed s) (Some (stmt w).2))
       | None => (Ok (stmt (committed s)).1, tick s (stmt (committed s)).2 None)
       end.
Proof.
  unfold query, working. destruct (faults (issued s)); [done|].
  destruct (pending s); cbn; by destruct (stmt _).
Qed.

(** A missing or zero rating, or a missing or empty stall id, is answered
    before any statement is sent, whatever the store does. *)
Lemma feedback_required faults s user_id stall_id rating comment :
  falsy_string stall_id || falsy_number rating = true →
  submitFeedback user_id stall_id rating comment faults s =
  (Ok RatingRequired, s).
Proof.
  intros Hfalsy. unfold submitFeedback, handler, try_catch.
  by rewrite Hfalsy.
Qed.

(** What a healthy store answers to a request whose stall id and rating
    are present. *)
Lemma feedback_served d user_id stall_id rating comment :
  stall_id ≠ "" → rating ≠ 0 →
  serve (submitFeedback user_id (Some stall_id) (Some rating) comment) d =
  if (rating <? 1) || (rating >? 5) then (OutOfRange, d) else
  match students d !! user_id with
  | None => (StudentNotFound, d)
  | Some student =>
    if negb (is_inside_event student) then (NotCheckedIn, d) else
    if 200 <=? feedback_count user_id d then (QuotaExceeded, d) else
    match stalls d !! stall_id with
    | None => (FeedbackStallNotFound, d)
    | Some stall =>
      match reviewed user_id stall_id d with
      | Some _ => (AlreadyReviewed, d)
      | None =>
        (successResponse
           (FeedbackSubmitted (stall_name stall) (stall_number stall) rating
              (or_null comment) (feedback_count user_id d + 1)
              (200 - (feedback_count user_id d + 1)))
           "Feedback submitted successfully" 201,
         apply_feedback user_id stall_id rating comment d)
      end
    end
  end.
Proof.
  intros Hsid Hrating.
  unfold serve, submitFeedback, handler, try_catch. cbn [falsy_string falsy_number].
  apply String.eqb_neq in Hsid. apply Z.eqb_neq in Hrating.
  rewrite Hsid, Hrating. cbn [orb].
  change (default 0 (Some rating)) with rating.
  change (default "" (Some stall_id)) with stall_id.
  destruct ((rating <? 1) || (rating >? 5)); [reflexivity|].
  rewrite bind_run. unfold Student_findById. rewrite select_run.
  unfold connect, working, no_faults. cbn [issued pending committed default].
  destruct (students d !! user_id) as [student|]; [|reflexivity].
  destruct (is_inside_event student); [|reflexivity]. cbn [negb].
  rewrite bind_run. unfold Feedback_countByStudent. rewrite select_run.
  unfold working. cbn [issued tick pending committed default].
  fold (feedback_count user_id d).
  destruct (200 <=? feedback_count user_id d); [reflexivity|].
  rewrite bind_run. unfold Stall_findById. rewrite select_run.
  unfold working. cbn [issued tick pending committed default].
  destruct (stalls d !! stall_id) as [stall|]; [|reflexivity].
  rewrite bind_run. unfold Feedback_findByStudentAndStall. rewrite select_run.
  unfold working. cbn [issued tick pending committed default].
  fold (reviewed user_id stall_id d).
  destruct (reviewed user_id stall_id d); [reflexivity|].
  reflexivity.
Qed.

Lemma falsy_inputs stall_id rating :
  falsy_string stall_id || falsy_number rating = false →
  ∃ sid r, stall_id = Some sid ∧ rating = Some r ∧ sid ≠ "" ∧ r ≠ 0.
Proof.
  intros Hfalsy. apply orb_false_elim in Hfalsy as [Hs Hr].
  destruct stall_id as [sid|]; [|done]. destruct rating as [r|]; [|done].
  exists sid, r. cbn in Hs, Hr.
  apply String.eqb_neq in Hs. apply Z.eqb_neq in Hr. done.
Qed.

(** The handler answers with the first rejection in the listed order of
    checks, leaving the store alone, and accepts when no check rejects. *)
Lemma feedback_first_rejection d user_id stall_id rating comment :
  match first_rejection (feedback_checks user_id stall_id rating) d with
  | Some rejection =>
    serve (submitFeedback user_id stall_id rating comment) d = (rejection, d)
  | None =>
    ∃ data,
      serve (submitFeedback user_id stall_id rating comment) d =
      (successResponse data "Feedback submitted successfully" 201,
       apply_feedback user_id (default "" stall_id) (default 0 rating)
         comment d)
  end.
Proof.
  unfold first_rejection, feedback_checks. cbn [omap list_omap].
  destruct (falsy_string stall_id || falsy_number rating) eqn:Hfalsy.
  { cbn. unfold serve. by rewrite feedback_required. }
  destruct (falsy_inputs _ _ Hfalsy) as (sid & r & -> & -> & Hsid & Hr).
  rewrite feedback_served by done.
  change (default 0 (Some r)) with r. change (default "" (Some sid)) with sid.
  destruct ((r <? 1) || (r >? 5)); [done|].
  destruct (students d !! user_id) as [student|]; [|done]. cbn [fmap option_fmap option_map].
  destruct (is_inside_event student); [|done]. cbn [negb].
  destruct (200 <=? feedback_count user_id d); [done|].
  destruct (stalls d !! sid) as [stall|]; [|done].
  destruct (reviewed user_id sid d); [done|].
  cbn. eauto.
Qed.

(** C10. A request whose rating is absent or zero is answered with the
    required-fields error before anything else happens (no statement is
    sent, whatever the store), never with the range rejection; the range
    rejection is only given for a present, non-zero rating outside 1..5;
    and the handler's answer is the first rejection in the order presence,
    range, participant, check-in, quota, stall existence, duplicate. *)
Theorem feedback_missing_rating_first :
  (∀ faults s user_id stall_id rating comment,
     rating = None ∨ rating = Some 0 →
     submitFeedback user_id stall_id rating comment faults s =
       (Ok RatingRequired, s) ∧
     RatingRequired ≠ OutOfRange) ∧
  (∀ d user_id stall_id rating comment,
     (serve (submitFeedback user_id stall_id rating comment) d).1 = OutOfRange →
     ∃ r, rating = Some r ∧ r ≠ 0 ∧ (r < 1 ∨ 5 < r)) ∧
  (∀ d user_id stall_id rating comment,
     match first_rejection (feedback_checks user_id stall_id rating) d with
     | Some rejection =>
       serve (submitFeedback user_id stall_id rating comment) d = (rejection, d)
     | None =>
       ∃ data,
         serve (submitFeedback user_id stall_id rating comment) d =
         (successResponse data "Feedback submitted successfully" 201,
          apply_feedback user_id (default "" stall_id) (default 0 rating)
            comment d)
     end).
Proof.
  split_and!.
  - intros faults s user_id stall_id rating comment Hrating. split; [|done].
    apply feedback_required. destruct Hrating as [-> | ->]; cbn; apply orb_true_r.
  - intros d user_id stall_id rating comment.
    destruct (falsy_string stall_id || falsy_number rating) eqn:Hfalsy.
    { unfold serve. by rewrite feedback_required. }
    destruct (falsy_inputs _ _ Hfalsy) as (sid & r & -> & -> & Hsid & Hr).
    rewrite feedback_served by done.
    destruct ((r <? 1) || (r >? 5)) eqn:Hrange.
    { intros _. exists r. split_and!; [done..|].
      apply orb_prop in Hrange as [H|H]; lia. }
    destruct (students d !! user_id) as [student|]; [|done].
    destruct (is_inside_event student); [|done]. cbn [negb].
    destruct (200 <=? feedback_count user_id d); [done|].
    destruct (stalls d !! sid) as [stall|]; [|done].
    by destruct (reviewed user_id sid d).
  - apply feedback_first_rejection.
Qed.

Lemma feedback_missing_rating_first_witness :
  submitFeedback "u2" (Some "s1") (Some 0) None no_faults (connect sample_db) =
    (Ok RatingRequired, connect sample_db) ∧
  ∃ r : Z, Some 7 = Some r ∧ r ≠ 0 ∧ (r < 1 ∨ 5 < r).
Proof.
  destruct feedback_missing_rating_first as (Hfirst & Hrange & _). split.
  - apply (Hfirst no_faults (connect sample_db) "u2" (Some "s1") (Some 0) None).
    by right.
  - apply (Hrange sample_db "u2" (Some "s1") (Some 7) None).
    vm_compute. reflexivity.
Defined.

Lemma apply_feedback_students user_id stall_id rating comment d :
  students (apply_feedback user_id stall_id rating comment d) =
  alter add_feedback_given user_id (students d).
Proof. reflexivity. Qed.

Lemma apply_feedback_stalls user_id stall_id rating comment d :
  stalls (apply_feedback user_id stall_id rating comment d) =
  alter add_feedback_count stall_id (stalls d).
Proof. reflexivity. Qed.

Lemma apply_feedback_feedbacks_of user_id stall_id rating comment d :
  feedbacks_of user_id (apply_feedback user_id stall_id rating comment d) =
  feedbacks_of user_id d ++
  [ {| feedback_student_id := user_id; feedback_stall_id := stall_id;
       feedback_rating := rating; feedback_comment := or_null comment |} ].
Proof.
  unfold feedbacks_of, apply_feedback. cbn [feedbacks sql_count_feedback
    sql_count_given sql_insert_feedback].
  rewrite filter_app. f_equal. by rewrite filter_cons_True.
Qed.

Lemma apply_feedback_count user_id stall_id rating comment d :
  feedback_count user_id (apply_feedback user_id stall_id rating comment d) =
  feedback_count user_id d + 1.
Proof.
  unfold feedback_count. rewrite apply_feedback_feedbacks_of, length_app.
  cbn. lia.
Qed.

Lemma apply_feedback_reviewed user_id stall_id rating comment d :
  is_Some (reviewed user_id stall_id
             (apply_feedback user_id stall_id rating comment d)).
Proof.
  unfold reviewed. rewrite apply_feedback_feedbacks_of, filter_app.
  rewrite (filter_cons_True _ _ []) by done.
  destruct (filter _ (feedbacks_of user_id d)); cbn; eauto.
Qed.

(** Rating 0 is outside 1..5 and yet is not answered OutOfRange; and a
    participant's 200th feedback succeeds while its repetition is answered
    QuotaExceeded, not AlreadyReviewed. *)
Lemma feedback_rejections_by_order :
  ¬ (1 ≤ 0 ≤ 5) ∧
  serve (submitFeedback "u2" (Some "s1") (Some 0) None) sample_db =
    (RatingRequired, sample_db) ∧
  RatingRequired ≠ OutOfRange ∧
  (∃ data d',
     serve (submitFeedback "u2" (Some "s1") (Some 4) None) busy_db =
       (successResponse data "Feedback submitted successfully" 201, d') ∧
     serve (submitFeedback "u2" (Some "s1") (Some 4) None) d' =
       (QuotaExceeded, d')) ∧
  QuotaExceeded ≠ AlreadyReviewed.
Proof.
  split_and!; [lia | reflexivity | discriminate | | discriminate].
  eexists _, _. split; vm_compute; reflexivity.
Qed.

(** C6 (amended). With a stall id present, submitFeedback answers
    OutOfRange for a non-zero rating outside 1..5; for a rating in 1..5 it
    answers NotCheckedIn when the participant is not inside, else
    QuotaExceeded when the participant already has 200 feedbacks, else (for
    an existing stall) AlreadyReviewed when the pair already has a
    Feedback Record, and otherwise returns the Feedback Record with status
    201 and stores it with both counters raised; a repetition of an
    accepted feedback is answered AlreadyReviewed when the participant had
    fewer than 199 feedbacks before the first call. *)
Theorem feedback_outcomes d user_id stall_id rating comment :
  stall_id ≠ "" →
  let call r c := serve (submitFeedback user_id (Some stall_id) (Some r) c) in
  (rating ≠ 0 → ¬ (1 ≤ rating ≤ 5) → call rating comment d = (OutOfRange, d)) ∧
  (1 ≤ rating ≤ 5 →
   ∀ student, students d !! user_id = Some student →
     (is_inside_event student = false →
        call rating comment d = (NotCheckedIn, d)) ∧
     (is_inside_event student = true →
        (200 ≤ feedback_count user_id d →
           call rating comment d = (QuotaExceeded, d)) ∧
        (feedback_count user_id d < 200 →
         ∀ stall, stalls d !! stall_id = Some stall →
           (is_Some (reviewed user_id stall_id d) →
              call rating comment d = (AlreadyReviewed, d)) ∧
           (reviewed user_id stall_id d = None →
              let d' := apply_feedback user_id stall_id rating comment d in
              call rating comment d =
                (successResponse
                   (FeedbackSubmitted (stall_name stall) (stall_number stall)
                      rating (or_null comment) (feedback_count user_id d + 1)
                      (200 - (feedback_count user_id d + 1)))
                   "Feedback submitted successfully" 201, d') ∧
              (feedback_count user_id d < 199 →
               ∀ rating' comment', 1 ≤ rating' ≤ 5 →
                 call rating' comment' d' = (AlreadyReviewed, d')))))).
Proof.
  intros Hsid call. subst call. cbn beta.
  split.
  { intros Hr Hout. rewrite feedback_served by done.
    assert (((rating <? 1) || (rating >? 5)) = true) as ->; [|done].
    apply orb_true_iff. destruct (decide (rating < 1)); [left|right]; lia. }
  intros Hin student Hs.
  assert (Hr : rating ≠ 0) by lia.
  assert (Hrange : ∀ r, 1 ≤ r ≤ 5 → (r <? 1) || (r >? 5) = false).
  { intros r ?. apply orb_false_iff. split; lia. }
  rewrite feedback_served by done. rewrite Hrange, Hs by done.
  split; [by intros ->|]. intros Hinside. rewrite Hinside. cbn [negb].
  split.
  { intros Hq. by assert ((200 <=? feedback_count user_id d) = true) as -> by lia. }
  intros Hq stall Hst.
  assert ((200 <=? feedback_count user_id d) = false) as -> by lia.
  rewrite Hst. split; [by intros [f ->]|]. intros ->.
  split; [done|]. intros Hq' rating' comment' Hin'.
  rewrite feedback_served by (done || lia).
  rewrite Hrange by done.
  rewrite apply_feedback_students, apply_feedback_count, apply_feedback_stalls.
  rewrite !lookup_alter_eq, Hs, Hst.
  assert ((200 <=? feedback_count user_id d + 1) = false) as -> by lia.
  destruct (apply_feedback_reviewed user_id stall_id rating comment d) as [f ->].
  cbn. rewrite Hinside. reflexivity.
Qed.

Lemma feedback_outcomes_witness :
  serve (submitFeedback "u2" (Some "s1") (Some 7) None) sample_db =
    (OutOfRange, sample_db) ∧
  serve (submitFeedback "u2" (Some "s1") (Some 5) None)
        (apply_feedback "u2" "s1" 4 None sample_db) =
    (AlreadyReviewed, apply_feedback "u2" "s1" 4 None sample_db).
Proof.
  split.
  - destruct (feedback_outcomes sample_db "u2" "s1" 7 None) as [H _];
      [discriminate|].
    apply H; lia.
  - destruct (feedback_outcomes sample_db "u2" "s1" 4 None) as [_ H];
      [discriminate|].
    destruct (H ltac:(lia) (sample_student "2024SGTU10002" "SCSE" true))
      as [_ H2]; [vm_compute; reflexivity|].
    destruct (H2 eq_refl) as [_ H3].
    destruct (H3 ltac:(vm_compute; reflexivity)
                 (sample_stall "CS-001" "AI" "SCSE"
                    "STALL_CS-001_1700000000000_abcdeq"))
      as [_ H4]; [vm_compute; reflexivity|].
    destruct (H4 ltac:(vm_compute; reflexivity)) as [_ H5].
    apply H5; [vm_compute; reflexivity | lia].
Defined.

(** C7. The feedback insert and the two counter updates are three
    statements outside any transaction.  When the store rejects the
    participant counter update (statement 5), the request ends in an error
    with the Feedback Record stored and neither counter raised; and during
    an accepted request the stored record is observable before the
    counters are raised. *)
Theorem feedback_writes_not_atomic :
  let failed :=
    submitFeedback "u2" (Some "s1") (Some 4) None (fault_at 5)
      (connect sample_db) in
  let accepted :=
    submitFeedback "u2" (Some "s1") (Some 4) None no_faults
      (connect sample_db) in
  failed.1 = Ok (next_error db_error) ∧
  feedbacks (committed failed.2) =
    [ {| feedback_student_id := "u2"; feedback_stall_id := "s1";
         feedback_rating := 4; feedback_comment := None |} ] ∧
  total_feedback_given <$> students (committed failed.2) !! "u2" = Some 0 ∧
  total_feedback_count <$> stalls (committed failed.2) !! "s1" = Some 0 ∧
  committed failed.2 ≠ sample_db ∧
  committed failed.2 ≠ apply_feedback "u2" "s1" 4 None sample_db ∧
  committed accepted.2 = apply_feedback "u2" "s1" 4 None sample_db ∧
  ∃ o, o ∈ observed accepted.2 ∧
       length (feedbacks o) = 1%nat ∧
       total_feedback_given <$> students o !! "u2" = Some 0 ∧
       total_feedback_count <$> stalls o !! "s1" = Some 0.
Proof.
  split_and!; try (vm_compute; reflexivity).
  - intros H. apply (f_equal (λ d, length (feedbacks d))) in H.
    vm_compute in H. discriminate H.
  - intros H.
    apply (f_equal (λ d, total_feedback_given <$> students d !! "u2")) in H.
    vm_compute in H. discriminate H.
  - eexists. split.
    + vm_compute. apply list_elem_of_further, list_elem_of_further, list_elem_of_here.
    + split_and!; vm_compute; reflexivity.
Qed.

(** ** Gate scans *)

Lemma find_row_unique {V} (P : V → Prop) `{∀ v, Decision (P v)}
    (m : gmap string V) id v :
  m !! id = Some v → P v →
  (∀ id' v', m !! id' = Some v' → P v' → id' = id) →
  find_row P m = Some (id, v).
Proof.
  intros Hm HP Huniq. unfold find_row.
  assert (Hin : (id, v) ∈ map_to_list m) by by apply elem_of_map_to_list.
  destruct (list_find_elem_of (λ kv : string * V, P kv.2) _ _ Hin HP)
    as [[i [id' v']] Hfind].
  rewrite Hfind. cbn.
  apply list_find_Some in Hfind as (Hi & HP' & _).
  apply list_elem_of_lookup_2, elem_of_map_to_list in Hi.
  assert (id' = id) as -> by eauto.
  by rewrite Hm in Hi; injection Hi as ->.
Qed.

Lemma scan_once verify volunteer_id token id d student :
  scannable verify volunteer_id token id d →
  students d !! id = Some student →
  run_part (scanStudentQR verify volunteer_id token) d =
  (Ok (inr (if is_inside_event student then EXIT else ENTRY)),
   sql_count_scan volunteer_id (sql_toggle_inside id d)).
Proof.
  intros (student' & Hs' & Hdec & Huniq & Hactive) Hs.
  rewrite Hs in Hs'. injection Hs' as <-.
  unfold run_part, scanStudentQR. rewrite Hdec.
  rewrite bind_run. unfold Student_findByRegistrationNo. rewrite select_run.
  unfold connect, working, no_faults. cbn [issued pending committed default].
  rewrite (find_row_unique _ _ id student) by done.
  rewrite bind_run. unfold Volunteer_findById. rewrite select_run.
  unfold working. cbn [issued tick pending committed default].
  assert (Hgo : match volunteers d !! volunteer_id with
                | Some v => negb (is_active v)
                | None => false
                end = false).
  { destruct (volunteers d !! volunteer_id) as [v|] eqn:Hv; [|done].
    by rewrite (Hactive v). }
  rewrite Hgo. rewrite bind_run. unfold Student_processCheckInOut.
  rewrite query_run. cbn [issued tick pending committed fst snd].
  rewrite bind_run, execute_run. cbn [issued tick pending committed].
  reflexivity.
Qed.

Lemma scan_keeps_scannable verify volunteer_id token id d :
  scannable verify volunteer_id token id d →
  scannable verify volunteer_id token id
    (sql_count_scan volunteer_id (sql_toggle_inside id d)).
Proof.
  intros (student & Hs & Hdec & Huniq & Hactive).
  exists (toggle_inside student). cbn. split_and!.
  - by rewrite lookup_alter_eq, Hs.
  - done.
  - intros id' s' Hs' Hreg. destruct (decide (id' = id)) as [|Hne]; [done|].
    rewrite lookup_alter_ne in Hs' by done. eauto.
  - intros v Hv. rewrite lookup_alter_eq in Hv.
    destruct (volunteers d !! volunteer_id) as [v0|] eqn:Hv0; [|done].
    injection Hv as <-. cbn. eauto.
Qed.

Lemma alternating_lookup inside n i :
  (i < n)%nat →
  alternating inside n !! i =
  Some (if xorb inside (Nat.odd i) then EXIT else ENTRY).
Proof.
  revert inside i. induction n as [|n IH]; intros inside i Hi; [lia|].
  destruct i as [|i]; cbn [alternating lookup list_lookup].
  - by destruct inside.
  - rewrite IH by lia. rewrite Nat.odd_succ, <- Nat.negb_odd.
    by destruct inside, (Nat.odd i).
Qed.

Lemma scans_alternate verify volunteer_id token id n : ∀ d student,
  scannable verify volunteer_id token id d →
  students d !! id = Some student →
  let run := scan_times verify n volunteer_id token d in
  run.1 = (λ a, Ok (inr a)) <$> alternating (is_inside_event student) n ∧
  is_inside_event <$> students run.2 !! id =
    Some (Nat.iter n negb (is_inside_event student)).
Proof.
  induction n as [|n IH]; intros d student Hscan Hs.
  - cbn. by rewrite Hs.
  - cbn [scan_times alternating]. cbn zeta.
    rewrite (scan_once _ _ _ _ _ _ Hscan Hs). cbn [fst snd].
    destruct (IH (sql_count_scan volunteer_id (sql_toggle_inside id d))
                 (toggle_inside student)) as [Hdirs Hflag].
    + by apply scan_keeps_scannable.
    + cbn. by rewrite lookup_alter_eq, Hs.
    + cbn [is_inside_event toggle_inside] in Hdirs, Hflag.
      rewrite Hdirs, Hflag. split; [done|].
      by rewrite Nat.iter_succ_r.
Qed.

(** C3. For every number of scans of the same participant's token, served
    one after the other, the directions alternate starting from the
    opposite of the persisted flag: from [is_inside_event = false] the
    i-th scan (counting from 0) is an ENTRY for even i and an EXIT for odd
    i; every scan with the flag false gives ENTRY and sets it true, every
    scan with the flag true gives EXIT and sets it false. *)
Theorem scan_directions_alternate verify volunteer_id token id n d student :
  scannable verify volunteer_id token id d →
  students d !! id = Some student →
  let run := scan_times verify n volunteer_id token d in
  run.1 = (λ a, Ok (inr a)) <$> alternating (is_inside_event student) n ∧
  is_inside_event <$> students run.2 !! id =
    Some (Nat.iter n negb (is_inside_event student)) ∧
  (is_inside_event student = false →
   ∀ i, (i < n)%nat →
     run.1 !! i = Some (Ok (inr (if Nat.even i then ENTRY else EXIT)))) ∧
  run_part (scanStudentQR verify volunteer_id token) d =
    (Ok (inr (if is_inside_event student then EXIT else ENTRY)),
     sql_count_scan volunteer_id (sql_toggle_inside id d)) ∧
  is_inside_event <$>
    students (sql_count_scan volunteer_id (sql_toggle_inside id d)) !! id =
    Some (negb (is_inside_event student)).
Proof.
  intros Hscan Hs. cbn zeta.
  destruct (scans_alternate verify volunteer_id token id n d student Hscan Hs)
    as [Hdirs Hflag].
  split_and!; [done | done | | by apply scan_once |].
  - intros Hout i Hi. rewrite Hdirs, list_lookup_fmap, alternating_lookup by done.
    rewrite Hout, <- Nat.negb_odd. by destruct (Nat.odd i).
  - cbn. by rewrite lookup_alter_eq, Hs.
Qed.

Lemma scan_directions_alternate_witness :
  (scan_times sample_decoder 4 "v1" "qr-u1" sample_db).1 =
  [Ok (inr ENTRY); Ok (inr EXIT); Ok (inr ENTRY); Ok (inr EXIT)].
Proof.
  assert (Hscan : scannable sample_decoder "v1" "qr-u1" "u1" sample_db).
  { exists (sample_student "2024SGTU10001" "SCSE" false). split_and!.
    - vm_compute; reflexivity.
    - reflexivity.
    - intros id' s' Hs' Hreg. apply elem_of_map_to_list in Hs'.
      vm_compute in Hs'.
      apply elem_of_cons in Hs' as [[= -> ->]|Hs']; [reflexivity|].
      apply elem_of_cons in Hs' as [[= -> ->]|Hs']; [discriminate Hreg|].
      by apply elem_of_nil in Hs'.
    - intros v Hv. vm_compute in Hv. injection Hv as <-. reflexivity. }
  exact (proj1 (scan_directions_alternate sample_decoder "v1" "qr-u1" "u1" 4
                  sample_db (sample_student "2024SGTU10001" "SCSE" false)
                  Hscan eq_refl)).
Defined.

(** ** Rotating participant tokens *)

Section CodecFacts.

Variable ROTATION_INTERVAL : Z.
Variable GRACE_WINDOWS : Z.
Variable secret : string.
Variable sign : string → TokenCodec.IdentityClaim → string.
Variable RotatingToken : Type.
Variable encode : TokenCodec.SignedClaim → RotatingToken.
Variable decode : RotatingToken → option TokenCodec.SignedClaim.

Hypothesis grace_nonneg : 0 ≤ GRACE_WINDOWS.
Hypothesis decode_encode : ∀ t, decode (encode t) = Some t.

#[local] Abbreviation window := (TokenCodec.window ROTATION_INTERVAL).
#[local] Abbreviation generate :=
  (TokenCodec.generateParticipantToken ROTATION_INTERVAL secret sign
     RotatingToken encode).
#[local] Abbreviation verify :=
  (TokenCodec.verifyParticipantToken ROTATION_INTERVAL GRACE_WINDOWS secret
     sign RotatingToken decode).

(** The verdict on a freshly generated token only depends on the two
    windows. *)
Lemma verify_generated subject now nonce now' :
  verify (generate subject now nonce) now' =
  if window now' <? window now then inl TokenCodec.FutureWindow
  else if window now <? window now' - GRACE_WINDOWS then inl TokenCodec.Expired
  else inr subject.
Proof.
  unfold TokenCodec.verifyParticipantToken,
    TokenCodec.generateParticipantToken.
  rewrite decode_encode. cbn. by rewrite String.eqb_refl.
Qed.

(** C8. A generated participant token verifies at the time it was
    generated and returns its subject; generated at window [w], it
    verifies at every time whose window lies in [w, w + GRACE_WINDOWS],
    is rejected as FutureWindow at every time whose window is before [w]
    (the token's window is in the verifier's future) and as Expired at
    every time whose window is after [w + GRACE_WINDOWS]. *)
Theorem participant_token_window subject now nonce now' :
  let token := generate subject now nonce in
  verify token now = inr subject ∧
  (window now ≤ window now' ≤ window now + GRACE_WINDOWS →
     verify token now' = inr subject) ∧
  (window now' < window now →
     verify token now' = inl TokenCodec.FutureWindow) ∧
  (window now + GRACE_WINDOWS < window now' →
     verify token now' = inl TokenCodec.Expired).
Proof.
  cbn zeta. rewrite !verify_generated. split_and!.
  - assert ((window now <? window now) = false) as -> by lia.
    by assert ((window now <? window now - GRACE_WINDOWS) = false) as -> by lia.
  - intros ?. assert ((window now' <? window now) = false) as -> by lia.
    by assert ((window now <? window now' - GRACE_WINDOWS) = false) as -> by lia.
  - intros ?. by assert ((window now' <? window now) = true) as -> by lia.
  - intros ?. assert ((window now' <? window now) = false) as -> by lia.
    by assert ((window now <? window now' - GRACE_WINDOWS) = true) as -> by lia.
Qed.

End CodecFacts.

Lemma participant_token_window_witness :
  sample_verify (sample_generate "2024SGTU10001" 1000 "a1b2") 1000 =
    inr "2024SGTU10001" ∧
  sample_verify (sample_generate "2024SGTU10001" 1000 "a1b2") 1040 =
    inr "2024SGTU10001" ∧
  sample_verify (sample_generate "2024SGTU10001" 1000 "a1b2") 960 =
    inl TokenCodec.FutureWindow ∧
  sample_verify (sample_generate "2024SGTU10001" 1000 "a1b2") 1070 =
    inl TokenCodec.Expired.
Proof.
  destruct (participant_token_window 30 1 "secret" sample_sign
              TokenCodec.SignedClaim id Some ltac:(lia) ltac:(reflexivity)
              "2024SGTU10001" 1000 "a1b2" 1040) as (H0 & H1 & _ & _).
  destruct (participant_token_window 30 1 "secret" sample_sign
              TokenCodec.SignedClaim id Some ltac:(lia) ltac:(reflexivity)
              "2024SGTU10001" 1000 "a1b2" 960) as (_ & _ & H2 & _).
  destruct (participant_token_window 30 1 "secret" sample_sign
              TokenCodec.SignedClaim id Some ltac:(lia) ltac:(reflexivity)
              "2024SGTU10001" 1000 "a1b2" 1070) as (_ & _ & _ & H3).
  split_and!.
  - exact H0.
  - apply H1. vm_compute. split; discriminate.
  - apply H2. reflexivity.
  - apply H3. reflexivity.
Defined.

(** ** Stall tokens *)












(** * Further properties *)

(** ** Computations that respect a preorder on stores *)

Section Respects.

Context (R : relation db) `{!PreOrder R}.

Lemma respects_mret {A} (a : A) : respects R (mret a : M A).
Proof.
  intros faults s Hs. cbn. split_and!; [done | done |].
  exists []. by split.
Qed.

Lemma respects_throw {A} e : respects R (throw e : M A).
Proof.
  intros faults s Hs. cbn. split_and!; [done | done |].
  exists []. by split.
Qed.

Lemma respects_bind {A B} (m : M A) (k : A → M B) :
  respects R m → (∀ a, respects R (k a)) → respects R (m ≫= k).
Proof.
  intros Hm Hk faults s Hs. rewrite bind_run.
  destruct (Hm faults s Hs) as (Hc & Hs1 & new1 & Ho1 & Hn1).
  destruct (m faults s) as [[a|e] s1]; cbn in *.
  - destruct (Hk a faults s1 Hs1) as (Hc2 & Hs2 & new2 & Ho2 & Hn2).
    split_and!; [by etrans | done |].
    exists (new2 ++ new1). rewrite Ho2, Ho1, (assoc_L (++)). split; [done|].
    apply Forall_app. split; [|done].
    eapply Forall_impl; [done|]. intros o ?. by etrans.
  - split_and!; [done | done | by exists new1].
Qed.

Lemma respects_try_catch {A} (m : M A) (h : string → M A) :
  respects R m → (∀ e, respects R (h e)) → respects R (try_catch m h).
Proof.
  intros Hm Hh faults s Hs. unfold try_catch.
  destruct (Hm faults s Hs) as (Hc & Hs1 & new1 & Ho1 & Hn1).
  destruct (m faults s) as [[a|e] s1]; cbn in *.
  - split_and!; [done | done | by exists new1].
  - destruct (Hh e faults s1 Hs1) as (Hc2 & Hs2 & new2 & Ho2 & Hn2).
    split_and!; [by etrans | done |].
    exists (new2 ++ new1). rewrite Ho2, Ho1, (assoc_L (++)). split; [done|].
    apply Forall_app. split; [|done].
    eapply Forall_impl; [done|]. intros o ?. by etrans.
Qed.

Lemma respects_query {A} (stmt : db → A * db) :
  (∀ d, R d (stmt d).2) → respects R (query stmt).
Proof.
  intros Hstmt faults s Hs. rewrite query_run.
  destruct (faults (issued s)); cbn.
  { split_and!; [done | done |]. exists [committed s]. split; [done|].
    by constructor. }
  destruct (pending s) as [w|] eqn:Hp; cbn.
  - split_and!; [done | |].
    + intros w' [= <-]. etrans; [by apply Hs|]. apply Hstmt.
    + exists [committed s]. split; [done|]. by constructor.
  - split_and!; [apply Hstmt | by intros w' [=] |].
    exists [(stmt (committed s)).2]. split; [done|].
    constructor; [apply Hstmt | done].
Qed.

Lemma respects_select {A} (f : db → A) : respects R (select f).
Proof. apply respects_query. intros d. reflexivity. Qed.

Lemma respects_execute (f : db → db) :
  (∀ d, R d (f d)) → respects R (execute f).
Proof. intros Hf. by apply respects_query. Qed.

Lemma respects_BEGIN : respects R BEGIN.
Proof.
  intros faults s Hs. unfold BEGIN, working.
  destruct (faults (issued s)); cbn.
  { split_and!; [done | done |]. exists [committed s]. split; [done|].
    by constructor. }
  split_and!; [done | |].
  - intros w [= <-]. destruct (pending s) eqn:Hp; cbn; [by apply Hs | done].
  - exists [committed s]. split; [done|]. by constructor.
Qed.

Lemma respects_COMMIT : respects R COMMIT.
Proof.
  intros faults s Hs. unfold COMMIT, working.
  destruct (faults (issued s)); cbn.
  { split_and!; [done | done |]. exists [committed s]. split; [done|].
    by constructor. }
  assert (HR : R (committed s) (default (committed s) (pending s))).
  { destruct (pending s) eqn:Hp; cbn; [by apply Hs | done]. }
  split_and!; [done | by intros w [=] |].
  eexists [_]. split; [done|]. by constructor.
Qed.

Lemma respects_ROLLBACK : respects R ROLLBACK.
Proof.
  intros faults s Hs. unfold ROLLBACK.
  destruct (faults (issued s)); cbn.
  { split_and!; [done | done |]. exists [committed s]. split; [done|].
    by constructor. }
  split_and!; [done | by intros w [=] |].
  exists [committed s]. split; [done|]. by constructor.
Qed.

Lemma respects_for_of {A} (l : list A) (body : A → M unit) :
  (∀ x, respects R (body x)) → respects R (for_of l body).
Proof.
  intros Hbody. induction l as [|x l IH]; cbn [for_of].
  - apply respects_mret.
  - apply respects_bind; [done|]. by intros _.
Qed.

Lemma respects_handler (body : M response) :
  respects R body → respects R (handler body).
Proof.
  intros Hbody. apply respects_try_catch; [done|].
  intros e. apply respects_mret.
Qed.

Lemma connect_settled d : settled R (connect d).
Proof. by intros w [=]. Qed.

End Respects.

(** ** The handlers only move the store forward *)

Lemma student_advances_refl s : student_advances s s.
Proof. unfold student_advances. split_and!; [done | done | done | lia]. Qed.

Lemma stall_advances_refl st : stall_advances st st.
Proof. unfold stall_advances. split_and!; (done || lia). Qed.

Lemma volunteer_advances_refl v : volunteer_advances v v.
Proof. unfold volunteer_advances. split; [done | lia]. Qed.

Lemma advances_preorder : PreOrder advances.
Proof.
  split.
  - intros d. unfold advances. split_and!; try done.
    + intros id. destruct (students d !! id); constructor.
      apply student_advances_refl.
    + intros id. destruct (stalls d !! id); constructor.
      apply stall_advances_refl.
    + intros id. destruct (volunteers d !! id); constructor.
      apply volunteer_advances_refl.
  - intros d1 d2 d3 (Hs1 & Ht1 & Hv1 & Hr1 & Hf1) (Hs2 & Ht2 & Hv2 & Hr2 & Hf2).
    unfold advances. split_and!; [| | | by etrans | by etrans].
    + intros id. specialize (Hs1 id). specialize (Hs2 id).
      destruct Hs1 as [s1 s2 H12|]; inversion Hs2 as [? s3 H23|]; subst;
        constructor.
      destruct H12 as (? & ? & ? & ?), H23 as (? & ? & ? & ?).
      unfold student_advances. split_and!; [congruence | congruence | auto | lia].
    + intros id. specialize (Ht1 id). specialize (Ht2 id).
      destruct Ht1 as [s1 s2 H12|]; inversion Ht2 as [? s3 H23|]; subst;
        constructor.
      destruct H12 as (? & ? & ? & ? & ? & ? & ? & ?),
               H23 as (? & ? & ? & ? & ? & ? & ? & ?).
      unfold stall_advances. split_and!; (congruence || lia).
    + intros id. specialize (Hv1 id). specialize (Hv2 id).
      destruct Hv1 as [s1 s2 H12|]; inversion Hv2 as [? s3 H23|]; subst;
        constructor.
      destruct H12 as (? & ?), H23 as (? & ?).
      unfold volunteer_advances. split; [congruence | lia].
Qed.

Lemma alter_advances {V} (Radv : relation V) (f : V → V) (m : gmap string V) k :
  (∀ x, Radv x x) → (∀ x, Radv x (f x)) →
  ∀ id, option_Forall2 Radv (m !! id) (alter f k m !! id).
Proof.
  intros Hrefl Hf id. destruct (decide (k = id)) as [->|Hne].
  - rewrite lookup_alter_eq. destruct (m !! id); constructor. apply Hf.
  - rewrite lookup_alter_ne by done. destruct (m !! id); constructor.
    apply Hrefl.
Qed.

Lemma same_advances {V} (Radv : relation V) (m : gmap string V) :
  (∀ x, Radv x x) → ∀ id, option_Forall2 Radv (m !! id) (m !! id).
Proof. intros Hrefl id. destruct (m !! id); constructor. apply Hrefl. Qed.

#[local] Ltac rows_advance :=
  first
    [ apply same_advances;
      first [apply student_advances_refl | apply stall_advances_refl
            | apply volunteer_advances_refl]
    | apply alter_advances;
      [ first [apply student_advances_refl | apply stall_advances_refl
              | apply volunteer_advances_refl] | ] ].

Lemma sql_insert_rankings_advances rows d : advances d (sql_insert_rankings rows d).
Proof.
  unfold advances. cbn. split_and!; [rows_advance.. | | done].
  by apply prefix_app_r.
Qed.

Lemma sql_mark_completed_advances user_id d :
  advances d (sql_mark_completed user_id d).
Proof.
  unfold advances. cbn. split_and!; [rows_advance.. | done | done].
  intros s. unfold student_advances. cbn. split_and!; [done | done | done | lia].
Qed.

Lemma sql_count_vote_advances e d : advances d (sql_count_vote e d).
Proof.
  unfold advances. cbn. split_and!; [rows_advance.. | done | done].
  intros st. unfold stall_advances, set_votes. cbn.
  split_and!; try done; repeat case_match; lia.
Qed.

Lemma sql_insert_feedback_advances row d : advances d (sql_insert_feedback row d).
Proof.
  unfold advances. cbn. split_and!; [rows_advance.. | done |].
  by apply prefix_app_r.
Qed.

Lemma sql_count_given_advances user_id d : advances d (sql_count_given user_id d).
Proof.
  unfold advances. cbn. split_and!; [rows_advance.. | done | done].
  intros s. unfold student_advances. cbn. split_and!; [done | done | done | lia].
Qed.

Lemma sql_count_feedback_advances stall_id d :
  advances d (sql_count_feedback stall_id d).
Proof.
  unfold advances. cbn. split_and!; [rows_advance.. | done | done].
  intros st. unfold stall_advances. cbn. split_and!; (done || lia).
Qed.

Lemma sql_toggle_inside_advances id d : advances d (sql_toggle_inside id d).
Proof.
  unfold advances. cbn. split_and!; [rows_advance.. | done | done].
  intros s. unfold student_advances. cbn. split_and!; [done | done | done | lia].
Qed.

Lemma sql_count_scan_advances volunteer_id d :
  advances d (sql_count_scan volunteer_id d).
Proof.
  unfold advances. cbn. split_and!; [rows_advance.. | done | done].
  intros v. unfold volunteer_advances. cbn. split; [done | lia].
Qed.

Create HintDb advances.

#[local] Hint Resolve sql_insert_rankings_advances sql_mark_completed_advances
  sql_count_vote_advances sql_insert_feedback_advances
  sql_count_given_advances sql_count_feedback_advances
  sql_toggle_inside_advances sql_count_scan_advances : advances.

#[local] Ltac respect :=
  repeat first
    [ apply respects_mret | apply respects_throw | apply respects_select
    | apply respects_BEGIN | apply respects_COMMIT | apply respects_ROLLBACK
    | apply respects_handler | apply respects_try_catch
    | apply respects_for_of | apply respects_bind
    | apply respects_execute | apply respects_query
    | progress intros
    | match goal with
      | |- respects _ (if ?b then _ else _) => destruct b
      | |- respects _ (match ?x with _ => _ end) => destruct x
      | |- respects _ (let _ := _ in _) => cbn zeta
      end ].

Lemma respects_connect (R : relation db) `{!PreOrder R} {A} (m : M A) faults d :
  respects R m →
  R d (committed (m faults (connect d)).2) ∧
  Forall (R d) (observed (m faults (connect d)).2).
Proof.
  intros Hm. destruct (Hm faults (connect d)) as (Hc & _ & new & Ho & Hnew).
  { by apply connect_settled. }
  split; [done|]. rewrite Ho. cbn. by rewrite app_nil_r.
Qed.

Lemma submitSchoolRanking_respects_advances user_id rs :
  respects advances (submitSchoolRanking user_id rs).
Proof.
  pose proof advances_preorder.
  unfold submitSchoolRanking, ranking_checks, ranking_transaction,
    Student_findById, Ranking_bulkCreate.
  respect; auto with advances.
Qed.

Lemma submitFeedback_respects_advances user_id stall_id rating comment :
  respects advances (submitFeedback user_id stall_id rating comment).
Proof.
  pose proof advances_preorder.
  unfold submitFeedback, Student_findById, Stall_findById,
    Feedback_countByStudent, Feedback_findByStudentAndStall, Feedback_create,
    Student_incrementFeedbackCount.
  respect; cbn; auto with advances.
Qed.

Lemma scanStudentQR_respects_advances verify volunteer_id token :
  respects advances (scanStudentQR verify volunteer_id token).
Proof.
  pose proof advances_preorder.
  unfold scanStudentQR, Student_findByRegistrationNo, Volunteer_findById,
    Student_processCheckInOut.
  respect; cbn; auto with advances.
Qed.


(** X1. Whatever statements the store rejects, a ranking submission, a
    feedback submission and a gate scan only move the store forward: in the
    committed store they leave, and in every committed store logged while
    they run, the
    same participants, stalls and volunteers exist with the same identity
    columns (registration number, school, stall number and name, stall
    token, active flag), no vote, feedback or scan counter is lower, no
    completion flag has been unset, and every ranking and feedback row of
    before is still in place. *)
Theorem handlers_only_move_forward faults d :
  (∀ user_id rs,
     let s := (submitSchoolRanking user_id rs faults (connect d)).2 in
     advances d (committed s) ∧ Forall (advances d) (observed s)) ∧
  (∀ user_id stall_id rating comment,
     let s := (submitFeedback user_id stall_id rating comment faults
                 (connect d)).2 in
     advances d (committed s) ∧ Forall (advances d) (observed s)) ∧
  (∀ verify volunteer_id token,
     let s := (scanStudentQR verify volunteer_id token faults (connect d)).2 in
     advances d (committed s) ∧ Forall (advances d) (observed s)).
Proof.
  pose proof advances_preorder. split_and!; intros; cbn zeta.
  - apply (respects_connect advances), submitSchoolRanking_respects_advances.
  - apply (respects_connect advances), submitFeedback_respects_advances.
  - apply (respects_connect advances), scanStudentQR_respects_advances.
Qed.


(** ** The body checks of a ranking request *)








